(** * remove-dead-domains.py: a shallow embedding and its properties

    The script reads a list of domains, resolves each one against five
    public DNS server pairs, probes the web ports of the domains whose
    resolution partly failed, and rewrites the list without the dead ones.

    The network and the random generator are the environment: they appear
    as oracles (section variables), so every theorem holds for all of them.
    The progress bars (tqdm) are not modelled: no value computed by the
    script depends on them.  The bump of the limit on open files stands
    apart from the run, which does not depend on it either. *)

From stdpp Require Import gmap strings list fin_maps sets pretty.
From Stdlib Require Import ZArith.

Open Scope Z_scope.
Open Scope string_scope.
Open Scope list_scope.

(** ** Python values *)

Module Py.

(** Truth value of the values the script tests: a [bool] is itself, a
    [str] is true unless empty, [None] is false. *)
Class Truth (A : Type) := truth : A → bool.
#[global] Instance truth_bool : Truth bool := id.
#[global] Instance truth_str : Truth string := λ s, negb (String.eqb s "").
#[global] Instance truth_optional {A} `{Truth A} : Truth (option A) :=
  λ o, match o with None => false | Some a => truth a end.

Definition any {A} `{Truth A} (l : list A) : bool := existsb truth l.
Definition all {A} `{Truth A} (l : list A) : bool := forallb truth l.

(** A [str] is kept as the bytes of its UTF-8 encoding, the encoding in
    which the list file is read and written: the file is taken to be well
    formed UTF-8, on which [open] does not raise.  [code1], [code2] and
    [code3] decode a character of one, two and three bytes; no longer
    character is white space. *)
Definition byte (b : Ascii.ascii) : N := Ascii.N_of_ascii b.

Definition continuation (b : Ascii.ascii) : option N :=
  if (0x80 <=? byte b)%N && (byte b <=? 0xBF)%N then Some (byte b - 0x80)%N else None.

Definition code1 (b1 : Ascii.ascii) : option N :=
  if (byte b1 <? 0x80)%N then Some (byte b1) else None.

Definition code2 (b1 b2 : Ascii.ascii) : option N :=
  if (0xC2 <=? byte b1)%N && (byte b1 <=? 0xDF)%N then
    match continuation b2 with
    | Some n2 => Some ((byte b1 - 0xC0) * 64 + n2)%N
    | None => None
    end
  else None.

Definition code3 (b1 b2 b3 : Ascii.ascii) : option N :=
  if (0xE0 <=? byte b1)%N && (byte b1 <=? 0xEF)%N then
    match continuation b2, continuation b3 with
    | Some n2, Some n3 =>
        let c := ((byte b1 - 0xE0) * 4096 + n2 * 64 + n3)%N in
        if (0x800 <=? c)%N then Some c else None
    | _, _ => None
    end
  else None.

(** [str.isspace] on one character, which is what [str.rstrip()] strips:
    tab to carriage return, the four separators and the space, and the
    white space of Unicode: next line, no-break space, ogham space mark,
    en quad to hair space, line and paragraph separator, narrow no-break
    space, medium mathematical space, ideographic space. *)
Definition isspace (c : N) : bool :=
  ((9 <=? c) && (c <=? 13) || (28 <=? c) && (c <=? 32)
   || (c =? 0x85) || (c =? 0xA0) || (c =? 0x1680)
   || (0x2000 <=? c) && (c <=? 0x200A)
   || (c =? 0x2028) || (c =? 0x2029) || (c =? 0x202F)
   || (c =? 0x205F) || (c =? 0x3000))%N.

Definition space (c : option N) : bool :=
  match c with
  | Some c => isspace c
  | None => false
  end.

(** The string is made of white space only. *)
Fixpoint blank (s : string) : bool :=
  match s with
  | EmptyString => true
  | String b1 s1 =>
      if space (code1 b1) then blank s1
      else
        match s1 with
        | EmptyString => false
        | String b2 s2 =>
            if space (code2 b1 b2) then blank s2
            else
              match s2 with
              | EmptyString => false
              | String b3 s3 => space (code3 b1 b2 b3) && blank s3
              end
        end
  end.

(** The newline character. *)
Definition LF : string := String (Ascii.ascii_of_nat 10) EmptyString.

(** The no-break space, U+00A0, and the ideographic space, U+3000. *)
Definition NBSP : string :=
  String (Ascii.ascii_of_nat 194) (String (Ascii.ascii_of_nat 160) EmptyString).
Definition IDEOGRAPHIC_SPACE : string :=
  String (Ascii.ascii_of_nat 227)
    (String (Ascii.ascii_of_nat 128) (String (Ascii.ascii_of_nat 128) EmptyString)).

(** [str.rstrip()]: the string without the white space at its end. *)
Fixpoint rstrip (s : string) : string :=
  match s with
  | EmptyString => EmptyString
  | String c s' => if blank s then EmptyString else String c (rstrip s')
  end.

(** The exceptions the script can meet.  [OSError errno] stands for an
    [OSError] of any subclass other than [ConnectionRefusedError]; the
    handlers of the script look at nothing but its [errno]. *)
Inductive exn : Type :=
  | ConnectionRefusedError
  | TimeoutError            (* asyncio.TimeoutError, raised by wait_for *)
  | OSError (errno : option Z)
  | DNSError                (* aiodns.error.DNSError *)
  | StopIteration
  | Exception (name : string).

Inductive result (A : Type) : Type :=
  | Ok (a : A)
  | Raise (e : exn).
Arguments Ok {A} a.
Arguments Raise {A} e.

#[global] Instance exn_eq_dec : EqDecision exn.
Proof. solve_decision. Defined.
#[global] Instance result_eq_dec {A} `{EqDecision A} : EqDecision (result A).
Proof. solve_decision. Defined.

(** [next(filter(None, l))]: the first true element, [StopIteration] when
    there is none. *)
Fixpoint next_filter (l : list (option string)) : result string :=
  match l with
  | [] => Raise StopIteration
  | None :: l' => next_filter l'
  | Some s :: l' => if truth s then Ok s else next_filter l'
  end.

(** [asyncio.gather] followed by [run_until_complete]: the results of the
    futures in order, or the exception of a future that failed.  When
    several fail, the one that surfaces depends on timing; the first in
    list order stands for it. *)
Fixpoint gather {A} (futures : list (result A)) : result (list A) :=
  match futures with
  | [] => Ok []
  | Raise e :: _ => Raise e
  | Ok a :: rest =>
      match gather rest with
      | Ok l => Ok (a :: l)
      | Raise e => Raise e
      end
  end.

(** A [dict] in insertion order: assigning to a key that is present
    replaces its value in place, a new key goes to the end. *)
Fixpoint dict_set {V} (k : string) (v : V) (d : list (string * V)) : list (string * V) :=
  match d with
  | [] => [(k, v)]
  | (k', v') :: d' =>
      if decide (k' = k) then (k, v) :: d' else (k', v') :: dict_set k v d'
  end.

Fixpoint dict_get {V} (k : string) (d : list (string * V)) : option V :=
  match d with
  | [] => None
  | (k', v) :: d' => if decide (k' = k) then Some v else dict_get k d'
  end.

End Py.
Import Py.

(** ** The [random] module

    The generator is an arbitrary source of naturals read at successive
    positions; [randbelow n] is some number below [n].  The three
    functions follow CPython's [random.py]. *)

Module Random.

Definition source := nat → nat.

Section WithSource.
Variable src : source.

Definition randbelow (n : nat) (pos : nat) : nat * nat :=
  ((src pos) `mod` n, S pos)%nat.

(** [random.randint(a, b)] is [a + randbelow(b - a + 1)]. *)
Definition randint (a b : Z) (pos : nat) : Z * nat :=
  let '(r, pos') := randbelow (Z.to_nat (b - a + 1)) pos in
  (a + Z.of_nat r, pos').

(** [random.choice] on a pair. *)
Definition choice {A} (p : A * A) (pos : nat) : A * nat :=
  let '(r, pos') := randbelow 2 pos in
  (match r with O => fst p | _ => snd p end, pos').

(** [x[i], x[j] = x[j], x[i]]; the shuffle keeps both indices in range. *)
Definition swap {A} (x : list A) (i j : nat) : list A :=
  match x !! i, x !! j with
  | Some xi, Some xj => <[j:=xi]> (<[i:=xj]> x)
  | _, _ => x
  end.

(** [for i in reversed(range(1, len(x))): j = randbelow(i + 1); swap].
    The argument [i] counts down from [len(x) - 1]. *)
Fixpoint shuffle_from {A} (i : nat) (x : list A) (pos : nat) : list A * nat :=
  match i with
  | O => (x, pos)
  | S i' =>
      let '(j, pos') := randbelow (S i) pos in
      shuffle_from i' (swap x i j) pos'
  end.

Definition shuffle {A} (x : list A) (pos : nat) : list A * nat :=
  shuffle_from (length x - 1) x pos.

End WithSource.
End Random.

(** ** Configuration *)

Definition DNS_SERVERS : list (string * string) :=
  [ ("8.8.8.8", "8.8.4.4");
    ("208.67.222.222", "208.67.220.220");
    ("84.200.69.80", "84.200.70.40");
    ("209.244.0.3", "209.244.0.4");
    ("8.26.56.26", "8.20.247.20") ].
Definition WEB_PORTS : list Z := [80; 443].
Definition MAX_CONCURRENT_REQUESTS_PER_DNS_SERVER : nat := 10.
Definition MAX_DNS_ATTEMPTS : nat := 10.
Definition BASE_DNS_TIMEOUT_S : Z := 3.

(** [errno.EHOSTUNREACH] and, for the examples, [errno.ENETUNREACH]
    (Linux). *)
Definition EHOSTUNREACH : Z := 113.
Definition ENETUNREACH : Z := 101.

(** ** Programs with state and exceptions *)

Definition prog (S A : Type) : Type := S → result A * S.

Definition ret {S A} (a : A) : prog S A := λ st, (Ok a, st).
Definition raise {S A} (e : exn) : prog S A := λ st, (Raise e, st).
Definition bind {S A B} (f : A → prog S B) (m : prog S A) : prog S B :=
  λ st, match m st with
        | (Ok a, st') => f a st'
        | (Raise e, st') => (Raise e, st')
        end.

#[global] Instance prog_ret {S} : MRet (prog S) := @ret S.
#[global] Instance prog_bind {S} : MBind (prog S) := @bind S.

(** [asyncio.ensure_future]: the coroutine runs on its own and its
    outcome, result or exception, is kept in the future. *)
Definition ensure_future {S A} (coroutine : prog S A) : prog S (result A) :=
  λ st, let '(r, st') := coroutine st in (Ok r, st').

Definition run_until_complete {S A} (futures : list (result A)) : prog S (list A) :=
  λ st, (gather futures, st).

(** ** DNS resolution

    A call of [dns_resolve_domain] draws random numbers and sends DNS
    queries.  Timeouts are kept in hundredths of a second, the unit of the
    jitter.  The semaphores are left to the module [Semaphore] below: they
    delay a query and do not change its outcome. *)

Record query := Query {
  q_domain : string;
  q_server : string;
  q_attempt : nat;
  q_timeout : Z
}.

Record task_state := TaskState {
  rng_pos : nat;
  sent : list query      (* queries issued so far, oldest first *)
}.

(** What [await asyncio.wait_for(resolver.query(domain, "A"), timeout)]
    gives: the hosts of the A records of the response, or an exception. *)
Inductive query_outcome : Type :=
  | Response (hosts : list string)
  | QueryRaises (e : exn).

Abbreviation task := (prog task_state).

(** The queries [qs] all went for [domain] to [dns_server]. *)
Definition sent_to (domain dns_server : string) (qs : list query) : Prop :=
  Forall (λ q, q_domain q = domain ∧ q_server q = dns_server) qs.

(** From [st] to [st'] exactly [n] queries were issued, all for [domain]
    to [dns_server]. *)
Definition issued (domain dns_server : string) (n : nat) (st st' : task_state) : Prop :=
  ∃ qs, sent st' = sent st ++ qs ∧ length qs = n ∧ sent_to domain dns_server qs.

Section Dns.

(** The random source and the DNS servers as one call meets them. *)
Variable src : Random.source.
Variable dns : query → query_outcome.

Definition draw {A} (f : nat → A * nat) : task A :=
  λ st, let '(a, pos') := f (rng_pos st) in
        (Ok a, TaskState pos' (sent st)).

(** Line 35 to 38: issue the query and wait for its outcome. *)
Definition send (q : query) : task query_outcome :=
  λ st, (Ok (dns q), TaskState (rng_pos st) (sent st ++ [q])).

(** The loop of [dns_resolve] over the attempts left; the empty list is
    the [else] branch of the [for]. *)
Fixpoint dns_resolve_loop (domain dns_server : string) (attempts : list nat)
    (timeout : Z) : task (option string) :=
  match attempts with
  | [] => ret None
  | attempt :: rest =>
      o ← send (Query domain dns_server attempt timeout);
      match o with
      | QueryRaises TimeoutError =>
          jitter ← draw (Random.randint src (-20) 20);
          dns_resolve_loop domain dns_server rest (BASE_DNS_TIMEOUT_S * 100 + jitter)
      | QueryRaises DNSError => ret None
      | QueryRaises e => raise e
      | Response [] => ret None
      | Response (host :: _) => ret (Some host)
      end
  end.

Definition dns_resolve (domain dns_server : string) : task (option string) :=
  dns_resolve_loop domain dns_server (seq 1 MAX_DNS_ATTEMPTS)
    (BASE_DNS_TIMEOUT_S * 100).

(** The loop of [dns_resolve_domain] over the shuffled server pairs. *)
Fixpoint dns_resolve_servers (domain : string) (dns_servers : list (string * string))
    (r : list (option string)) : task (list (option string)) :=
  match dns_servers with
  | [] => ret r
  | dns_server_ips :: rest =>
      dns_server_ip ← draw (Random.choice src dns_server_ips);
      ip ← dns_resolve domain dns_server_ip;
      dns_resolve_servers domain rest (r ++ [ip])
  end.

Definition dns_resolve_domain (domain : string) : task (list (option string)) :=
  dns_servers ← draw (Random.shuffle src DNS_SERVERS);
  dns_resolve_servers domain dns_servers [].

(** The attempts before the [k]-th all time out, whatever their timeout. *)
Definition times_out_before (domain dns_server : string) (k : nat) : Prop :=
  ∀ a t, (1 ≤ a < k)%nat →
    dns (Query domain dns_server a t) = QueryRaises TimeoutError.

End Dns.

(** ** The TCP check and the script *)

Record world := World {
  list_file : list string;          (* the lines of the list file *)
  stdout : list string;             (* what was printed *)
  connections : list (string * Z)   (* TCP connections attempted, oldest first *)
}.

(** What [await asyncio.wait_for(asyncio.open_connection(ip, port), 10)]
    gives. *)
Inductive connect_outcome : Type :=
  | Connected
  | ConnectRaises (e : exn).

Abbreviation script := (prog world).

(** The [try] statement of line 75, on the outcome of the connection. *)
Definition on_connect (o : connect_outcome) : result bool :=
  match o with
  | Connected => Ok true                      (* writer.close() *)
  | ConnectRaises ConnectionRefusedError => Ok false
  | ConnectRaises TimeoutError => Ok false
  | ConnectRaises (OSError errno) =>
      if decide (errno = Some EHOSTUNREACH) then Ok false
      else Raise (OSError errno)
  | ConnectRaises e => Raise e
  end.

(** The errors that [has_tcp_port_open] takes for a closed port:
    connection refused, timeout, host unreachable. *)
Definition benign (e : exn) : Prop :=
  e = ConnectionRefusedError ∨ e = TimeoutError ∨ e = OSError (Some EHOSTUNREACH).

(** The values of the script's variables when it ends. *)
Record report := Report {
  domains : list string;
  dns_results : list (list (option string));   (* the results of the DNS futures *)
  dead_dns : gset string;                      (* [dead_domains] after line 128 *)
  tcp_check_domain_ips : list (string * list (option string));
  tcp_check_futures : list (string * list (result bool));
  dead_domains : gset string
}.

(** The body of the loop of line 121. *)
Definition classify_dns (acc : gset string * list (string * list (option string)))
    (item : string * list (option string))
    : gset string * list (string * list (option string)) :=
  let '(dead_domains, tcp_check_domain_ips) := acc in
  let '(domain, ips) := item in
  if negb (any ips) then
    ({[domain]} ∪ dead_domains, tcp_check_domain_ips)
  else if negb (all ips) then
    (dead_domains, dict_set domain ips tcp_check_domain_ips)
  else
    (dead_domains, tcp_check_domain_ips).

(** The body of the loop of line 150; [future.result()] raises what the
    future holds. *)
Definition classify_tcp (dead_domains : gset string)
    (item : string * list (result bool)) : script (gset string) :=
  let '(domain, futures) := item in
  status ← (λ w, (gather futures, w));
  mret (if negb (any status) then {[domain]} ∪ dead_domains else dead_domains).

Fixpoint classify_tcp_all (dead_domains : gset string)
    (items : list (string * list (result bool))) : script (gset string) :=
  match items with
  | [] => mret dead_domains
  | item :: rest =>
      dead_domains' ← classify_tcp dead_domains item;
      classify_tcp_all dead_domains' rest
  end.

(** Line 157 to 160. *)
Definition write_list (domains : list string) (dead_domains : gset string) : script unit :=
  λ w,
    let kept := filter (λ domain, domain ∉ dead_domains) domains in
    (Ok tt, World (map (λ domain, domain +:+ LF) kept) (stdout w) (connections w)).

Definition print (line : string) : script unit :=
  λ w, (Ok tt, World (list_file w) (stdout w ++ [line]) (connections w)).

Section Script.

(** The environment: the random source and the DNS answers of the call
    for the [i]-th line, and the outcome of the [k]-th TCP connection. *)
Variable rnd : nat → Random.source.
Variable net_dns : nat → query → query_outcome.
Variable net_tcp : nat → string → Z → connect_outcome.

Definition has_tcp_port_open (ip : string) (port : Z) : script bool :=
  λ w,
    (on_connect (net_tcp (length (connections w)) ip port),
     World (list_file w) (stdout w) (connections w ++ [(ip, port)])).

(** Line 114 to 117: one future per line, each on its own random draws. *)
Definition dns_check_futures (domains : list string)
    : list (result (list (option string))) :=
  imap (λ i domain,
          fst (dns_resolve_domain (rnd i) (net_dns i) domain (TaskState 0 [])))
       domains.

(** The loop of line 141. *)
Fixpoint tcp_checks_of (ip : string) (ports : list Z) : script (list (result bool)) :=
  match ports with
  | [] => mret []
  | port :: rest =>
      future ← ensure_future (has_tcp_port_open ip port);
      futures ← tcp_checks_of ip rest;
      mret (future :: futures)
  end.

(** The loop of line 139.  The keys of [tcp_check_domain_ips] are
    distinct, so [tcp_check_futures[domain]] is the list filled by the
    inner loop for that domain. *)
Fixpoint tcp_check_all (items : list (string * list (option string)))
    : script (list (string * list (result bool))) :=
  match items with
  | [] => mret []
  | (domain, ips) :: rest =>
      ip ← (λ w, (next_filter ips, w));
      futures ← tcp_checks_of ip WEB_PORTS;
      others ← tcp_check_all rest;
      mret ((domain, futures) :: others)
  end.

Definition main : script report :=
  lines ← (λ w, (Ok (list_file w), w));
  let domains := map rstrip lines in
  let dead_domains : gset string := ∅ in
  ips_all ← run_until_complete (dns_check_futures domains);
  let '(dead_dns, tcp_check_domain_ips) :=
    fold_left classify_dns (zip domains ips_all) (dead_domains, []) in
  tcp_check_futures ← tcp_check_all tcp_check_domain_ips;
  _ ← run_until_complete (concat (map snd tcp_check_futures));
  dead_domains ← classify_tcp_all dead_dns tcp_check_futures;
  _ ← write_list domains dead_domains;
  _ ← print (LF +:+ pretty (size dead_domains) +:+ " dead domain(s) removed");
  mret (Report domains ips_all dead_dns tcp_check_domain_ips tcp_check_futures dead_domains).

(** The futures of the checks of [ip], when [base] connections were made
    before them. *)
Definition port_futures (base : nat) (ip : string) (ports : list Z) : list (result bool) :=
  imap (λ j port, on_connect (net_tcp (base + j) ip port)) ports.

End Script.

(** ** The words of the specification *)

(** An entry of a Domain Resolution Vector is resolved when it holds an
    address, that is when Python takes it for true. *)
Definition resolved (o : option string) : Prop := truth o = true.
Definition unresolved (o : option string) : Prop := truth o = false.

(** [ip] is the first resolved address of [ips]. *)
Definition first_resolved (ips : list (option string)) (ip : string) : Prop :=
  ∃ before after,
    ips = before ++ Some ip :: after ∧ Forall unresolved before ∧ resolved (Some ip).

(** The domain [d] is on one line of the list only. *)
Definition on_one_line (domains : list string) (d : string) : Prop :=
  ∀ i j, domains !! i = Some d → domains !! j = Some d → i = j.

Abbreviation vectors := (list (string * list (option string))).

(** What the loop of line 121 leaves in [dead_domains] and in
    [tcp_check_domain_ips]. *)
Record phase1_inv (items : vectors) (dead : gset string) (tcp : vectors) : Prop := {
  inv_dead : ∀ d, d ∈ dead ↔ ∃ ips, (d, ips) ∈ items ∧ any ips = false;
  inv_tcp_sound : ∀ d ips, dict_get d tcp = Some ips →
                    (d, ips) ∈ items ∧ any ips = true ∧ all ips = false;
  inv_tcp_complete : ∀ d ips, (d, ips) ∈ items → any ips = true → all ips = false →
                       is_Some (dict_get d tcp);
  inv_tcp_keys : NoDup tcp.*1
}.

(** The domains that the loop of line 150 adds to [dead_domains]. *)
Definition dead_via_tcp (rep : report) : gset string :=
  list_to_set
    (filter (λ item : string * list (result bool),
               Forall (λ future, future = Ok false) item.2)
            (tcp_check_futures rep)).*1.

(** The domains written back to the file. *)
Definition alive (rep : report) : gset string :=
  list_to_set (filter (λ domain, domain ∉ dead_domains rep) (domains rep)).

Section RunFacts.
Variable net_tcp : nat → string → Z → connect_outcome.

(** What a run that ends well has established. *)
Record run_facts (w : world) (rep : report) (w' : world) : Prop := {
  run_domains : domains rep = map rstrip (list_file w);
  run_results_length : length (dns_results rep) = length (domains rep);
  run_vectors : Forall (λ ips : list (option string), length ips = length DNS_SERVERS)
                       (dns_results rep);
  run_phase1 : phase1_inv (zip (domains rep) (dns_results rep))
                          (dead_dns rep) (tcp_check_domain_ips rep);
  run_keys : (tcp_check_futures rep).*1 = (tcp_check_domain_ips rep).*1;
  run_results : ∀ d futures, (d, futures) ∈ tcp_check_futures rep →
                  ∃ status, futures = Ok <$> status;
  run_dead : ∀ d, d ∈ dead_domains rep ↔
               d ∈ dead_dns rep
               ∨ ∃ futures, (d, futures) ∈ tcp_check_futures rep
                            ∧ Forall (λ future, future = Ok false) futures;
  run_probes : ∃ conns,
      connections w' = connections w ++ conns
      ∧ length conns = (length (tcp_check_domain_ips rep) * length WEB_PORTS)%nat
      ∧ ∀ k d ips, tcp_check_domain_ips rep !! k = Some (d, ips) →
          ∃ ip, first_resolved ips ip
            ∧ tcp_check_futures rep !! k
              = Some (d, port_futures net_tcp
                           (length (connections w) + k * length WEB_PORTS) ip WEB_PORTS)
            ∧ ∀ j port, WEB_PORTS !! j = Some port →
                conns !! (k * length WEB_PORTS + j)%nat = Some (ip, port);
  run_file : list_file w'
             = map (λ domain, domain +:+ LF)
                 (filter (λ domain, domain ∉ dead_domains rep) (domains rep));
  run_stdout : stdout w'
               = stdout w ++ [LF +:+ pretty (size (dead_domains rep))
                                 +:+ " dead domain(s) removed"]
}.

End RunFacts.

(** ** A mocked network without state *)

(** The Dead Domain Set of a run, when it ends well. *)
Definition dead_set (run : result report * world) : option (gset string) :=
  match run.1 with
  | Ok rep => Some (dead_domains rep)
  | Raise _ => None
  end.

(** A DNS server gives one outcome for a domain, whatever the attempt and
    its timeout. *)
Definition stateless_dns (mock_dns : string → string → query_outcome)
    : query → query_outcome :=
  λ q, mock_dns (q_domain q) (q_server q).

(** The script on such a network: an address and a port give one outcome
    as well. *)
Definition main_mocked (rnd : nat → Random.source)
    (mock_dns : string → string → query_outcome)
    (mock_tcp : string → Z → connect_outcome) : script report :=
  main rnd (λ _, stateless_dns mock_dns) (λ _, mock_tcp).

(** What [dns_resolve] returns on a server that always gives [o]. *)
Definition answer (o : query_outcome) : result (option string) :=
  match o with
  | Response hosts => Ok (head hosts)
  | QueryRaises TimeoutError => Ok None
  | QueryRaises DNSError => Ok None
  | QueryRaises e => Raise e
  end.

Definition unOk {A} (r : result A) : option A :=
  match r with Ok a => Some a | Raise _ => None end.

(** Two runs of [gather] on the same futures in another order: both raise,
    or both give the same results in another order. *)
Inductive same_outcome {A} : result (list A) → result (list A) → Prop :=
  | both_raise e1 e2 : same_outcome (Raise e1) (Raise e2)
  | both_ok l1 l2 : l1 ≡ₚ l2 → same_outcome (Ok l1) (Ok l2).

Section MockedSpec.
Variable mock_dns : string → string → query_outcome.

(** The outcomes of the server pairs for a domain, in the order of [l]. *)
Definition answers (domain : string) (l : list (string * string))
    : list (result (option string)) :=
  map (λ pair, answer (mock_dns domain pair.1)) l.

(** The vectors of one domain in two runs: the same entries in another
    order, each the answer of a configured server. *)
Definition alike (domain : string) (ips1 ips2 : list (option string)) : Prop :=
  ips1 ≡ₚ ips2
  ∧ Forall (λ o, ∃ pair, pair ∈ DNS_SERVERS
                         ∧ answer (mock_dns domain pair.1) = Ok o) ips1.

Definition alike_outcome (domain : string)
    (r1 r2 : result (list (option string))) : Prop :=
  match r1, r2 with
  | Ok ips1, Ok ips2 => alike domain ips1 ips2
  | Raise _, Raise _ => True
  | _, _ => False
  end.

(** The same domain with vectors that are alike. *)
Definition items_alike (item1 item2 : string * list (option string)) : Prop :=
  item1.1 = item2.1 ∧ alike item1.1 item1.2 item2.2.

End MockedSpec.

(** ** The semaphores of [dns_resolve]

    The calls of [dns_resolve_domain] run together; each is, for one
    server at a time, before line 35, between line 35 and the semaphore of
    line 37, or inside it.  [resolver.query] of aiodns is a plain method
    that returns a future: the query leaves for the server when line 35
    runs.  The steps are finer than those of the event loop, where a call
    that finds the semaphore free runs line 35 and line 37 without being
    suspended; the state used below, ten calls inside the semaphore and an
    eleventh suspended at line 37, is one in which the event loop stops. *)

Module Semaphore.

Inductive pc : Type :=
  | Idle                              (* not in an attempt *)
  | Queried (dns_server : string)     (* line 35 done, waiting at line 37 *)
  | Holding (dns_server : string).    (* inside [async with sem], at line 38 *)

#[global] Instance pc_eq_dec : EqDecision pc.
Proof. solve_decision. Defined.

Record state := State {
  sems : gmap string nat;             (* the value of each semaphore created *)
  tasks : list pc
}.

(** [sems[dns_server_ip]] on the [defaultdict]: a semaphore is created
    with the configured value when its server is first used. *)
Definition sem_value (sems : gmap string nat) (dns_server : string) : nat :=
  default MAX_CONCURRENT_REQUESTS_PER_DNS_SERVER (sems !! dns_server).

Inductive event : Type :=
  | Send (i : nat) (dns_server : string)   (* call [i] runs line 35 *)
  | Acquire (i : nat)                      (* call [i] enters the semaphore *)
  | Settle (i : nat).                      (* the wait of call [i] ends *)

Definition fire (ev : event) (st : state) : option state :=
  match ev with
  | Send i s =>
      match tasks st !! i with
      | Some Idle =>
          Some (State (<[s := sem_value (sems st) s]> (sems st))
                      (<[i := Queried s]> (tasks st)))
      | _ => None
      end
  | Acquire i =>
      match tasks st !! i with
      | Some (Queried s) =>
          match sem_value (sems st) s with
          | S n => Some (State (<[s := n]> (sems st)) (<[i := Holding s]> (tasks st)))
          | O => None                      (* the call stays suspended *)
          end
      | _ => None
      end
  | Settle i =>
      match tasks st !! i with
      | Some (Holding s) =>
          Some (State (<[s := S (sem_value (sems st) s)]> (sems st))
                      (<[i := Idle]> (tasks st)))
      | _ => None
      end
  end.

Fixpoint run (evs : list event) (st : state) : option state :=
  match evs with
  | [] => Some st
  | ev :: evs' =>
      match fire ev st with
      | Some st' => run evs' st'
      | None => None
      end
  end.

(** [n] calls at their start, no semaphore created yet. *)
Definition init (n : nat) : state := State ∅ (replicate n Idle).

Definition reachable (n : nat) (st : state) : Prop :=
  ∃ evs, run evs (init n) = Some st.

(** The queries sent to a server and not settled yet. *)
Definition in_flight (st : state) (dns_server : string) : nat :=
  length (filter (λ p, p = Queried dns_server ∨ p = Holding dns_server) (tasks st)).

(** The calls inside the semaphore of a server. *)
Definition holding (st : state) (dns_server : string) : nat :=
  length (filter (λ p, p = Holding dns_server) (tasks st)).

(** The tasks inside a semaphore and its value add up to the limit. *)
Definition sem_inv (st : state) : Prop :=
  ∀ s, (holding st s + sem_value (sems st) s
        = MAX_CONCURRENT_REQUESTS_PER_DNS_SERVER)%nat.

(** Eleven domains whose first query goes to the same server: ten enter
    the semaphore, the eleventh has sent its query and waits. *)
Definition eleven_queries : list event :=
  flat_map (λ i, [Send i "8.8.8.8"; Acquire i]) (seq 0 10) ++ [Send 10 "8.8.8.8"].

End Semaphore.

(** ** Example runs *)

(** Three lines: the first resolves everywhere, the second nowhere, the
    third on two server pairs; port 80 is closed and port 443 open. *)
Definition scenario_file : world :=
  World ["a.test" +:+ LF; "b.test" +:+ LF; "c.test" +:+ LF] [] [].
Definition scenario_rnd : nat → Random.source := λ _ _, 0%nat.
Definition scenario_dns (i : nat) (q : query) : query_outcome :=
  match i with
  | 0%nat => Response ["192.0.2.1"]
  | 1%nat => QueryRaises DNSError
  | _ => if String.eqb (q_server q) "8.8.8.8" || String.eqb (q_server q) "8.26.56.26"
         then Response ["203.0.113.5"] else QueryRaises TimeoutError
  end.
Definition scenario_tcp (k : nat) (ip : string) (port : Z) : connect_outcome :=
  if (port =? 80)%Z then ConnectRaises ConnectionRefusedError else Connected.

(** The network is unreachable: an error outside the three benign ones. *)
Definition fatal_tcp (k : nat) (ip : string) (port : Z) : connect_outcome :=
  ConnectRaises (OSError (Some ENETUNREACH)).

(** A dead domain on two lines. *)
Definition duplicate_file : world :=
  World ["b.test" +:+ LF; "a.test" +:+ LF; "b.test" +:+ LF] [] [].
Definition duplicate_dns (i : nat) (q : query) : query_outcome :=
  if String.eqb (q_domain q) "b.test" then QueryRaises DNSError
  else Response ["192.0.2.1"].

(** Servers that never answer, fail at the third attempt, answer at the
    second. *)
Definition always_timeout (q : query) : query_outcome := QueryRaises TimeoutError.
Definition error_at_third (q : query) : query_outcome :=
  if (q_attempt q <? 3)%nat then QueryRaises TimeoutError else QueryRaises DNSError.
Definition answer_at_second (q : query) : query_outcome :=
  if (q_attempt q <? 2)%nat then QueryRaises TimeoutError
  else Response ["192.0.2.1"; "192.0.2.2"].

(** A mocked network on which only the first Google server knows the
    domain, and every port is open. *)
Definition one_server_dns (domain dns_server : string) : query_outcome :=
  if String.eqb dns_server "8.8.8.8" then Response ["192.0.2.1"]
  else QueryRaises DNSError.
Definition open_tcp (ip : string) (port : Z) : connect_outcome := Connected.
Definition one_line : world := World ["example.test" +:+ LF] [] [].

(** A mocked network on which both Google servers know the domain. *)
Definition google_dns (domain dns_server : string) : query_outcome :=
  if String.eqb dns_server "8.8.8.8" || String.eqb dns_server "8.8.4.4"
  then Response ["192.0.2.1"]
  else QueryRaises DNSError.

(** The report of a run that ends well. *)
Definition report_of (run : result report * world) : report :=
  match run.1 with
  | Ok rep => rep
  | Raise _ => Report [] [] ∅ [] [] ∅
  end.

Definition scenario_run : result report * world :=
  main scenario_rnd scenario_dns scenario_tcp scenario_file.
Definition fatal_run : result report * world :=
  main scenario_rnd scenario_dns fatal_tcp scenario_file.
Definition duplicate_run : result report * world :=
  main scenario_rnd duplicate_dns scenario_tcp duplicate_file.

(** ** More of the script *)

(** A timeout that [dns_resolve] may pass: the base timeout and a jitter
    of at most twenty hundredths of a second. *)
Definition jittered (timeout : Z) : Prop :=
  (BASE_DNS_TIMEOUT_S * 100 - 20 ≤ timeout ≤ BASE_DNS_TIMEOUT_S * 100 + 20)%Z.

(** A server that refuses the connection at the second attempt. *)
Definition refused_at_second (q : query) : query_outcome :=
  if (q_attempt q <? 2)%nat then QueryRaises TimeoutError
  else QueryRaises ConnectionRefusedError.

(** [dns_server] is one of the two addresses of [pair]. *)
Definition one_of (pair : string * string) (dns_server : string) : Prop :=
  dns_server = pair.1 ∨ dns_server = pair.2.

(** [qs] are the queries of one call of [dns_resolve] for [domain] on
    [dns_server]: at least one, at most [MAX_DNS_ATTEMPTS]. *)
Definition resolution_of (domain dns_server : string) (qs : list query) : Prop :=
  (1 ≤ length qs ≤ MAX_DNS_ATTEMPTS)%nat ∧ sent_to domain dns_server qs.

(** The entries of a vector are mixed: one is resolved, one is not. *)
Definition mixed (ips : list (option string)) : Prop :=
  Exists resolved ips ∧ Exists unresolved ips.

#[global] Instance mixed_dec ips : Decision (mixed ips).
Proof. unfold mixed. apply _. Defined.

(** A resolver that rejects the name of the domain, as line 35 does for
    a label that cannot be encoded. *)
Definition rejecting_dns (i : nat) (q : query) : query_outcome :=
  QueryRaises (Exception "UnicodeError").

(** ** The limit on open files

    Line 102 to 105.  [resource.RLIM_INFINITY] is a number whose value
    depends on the platform, so it is left open; [setrlimit] is taken to
    succeed, as a process may always raise its soft limit up to its hard
    limit. *)

Record process := Process {
  nofile : Z * Z;              (* RLIMIT_NOFILE: soft and hard limit *)
  printed : list string
}.

Section Limits.
Variable RLIM_INFINITY : Z.

Definition bump_limits (p : process) : process :=
  let '(soft_lim, hard_lim) := nofile p in
  if bool_decide (soft_lim ≠ RLIM_INFINITY)
     && (bool_decide (soft_lim < hard_lim)%Z || bool_decide (hard_lim = RLIM_INFINITY))
  then
    Process (hard_lim, hard_lim)
      (printed p ++ ["Max open files count set from " +:+ pretty soft_lim
                       +:+ " to " +:+ pretty hard_lim])
  else p.

(** The order of the limits, in which no limit is the greatest. *)
Definition limit_le (a b : Z) : Prop :=
  b = RLIM_INFINITY ∨ (a ≠ RLIM_INFINITY ∧ (a ≤ b)%Z).

End Limits.

(** ** More example runs *)

(** The first call of [dns_resolve_domain] of the three-line run. *)
Definition first_task : result (list (option string)) * task_state :=
  dns_resolve_domain (scenario_rnd 0%nat) (scenario_dns 0%nat) "a.test" (TaskState 0 []).

(** A domain on two lines that resolves on one server pair only, and not
    on the same pair for both lines. *)
Definition twice_file : world :=
  World ["c.test" +:+ LF; "c.test" +:+ LF] [] [].
Definition twice_dns (i : nat) (q : query) : query_outcome :=
  match i with
  | 0%nat => if String.eqb (q_server q) "8.8.8.8"
             then Response ["192.0.2.1"] else QueryRaises DNSError
  | _ => if String.eqb (q_server q) "8.26.56.26"
         then Response ["192.0.2.2"] else QueryRaises DNSError
  end.
Definition twice_run : result report * world :=
  main scenario_rnd twice_dns scenario_tcp twice_file.

(** Every server knows every domain; no host could be reached. *)
Definition healthy_dns (i : nat) (q : query) : query_outcome :=
  Response ["192.0.2.1"].
Definition healthy_run : result report * world :=
  main scenario_rnd healthy_dns fatal_tcp scenario_file.

Definition rejected_run : result report * world :=
  main scenario_rnd rejecting_dns scenario_tcp one_line.

Definition empty_file : world := World [] ["Domains checks"] [].

(** A domain on two lines.  For the first line no server knows it; for
    the second one server pair does, and every port is open. *)
Definition relisted_file : world :=
  World ["d.test" +:+ LF; "d.test" +:+ LF] [] [].
Definition relisted_dns (i : nat) (q : query) : query_outcome :=
  match i with
  | 0%nat => QueryRaises DNSError
  | _ => if String.eqb (q_server q) "8.8.8.8"
         then Response ["192.0.2.1"] else QueryRaises DNSError
  end.
Definition relisted_run : result report * world :=
  main scenario_rnd relisted_dns (λ _, open_tcp) relisted_file.

(** A domain on two lines that every server knows for the first line and
    none for the second. *)
Definition lapsed_dns (i : nat) (q : query) : query_outcome :=
  match i with
  | 0%nat => Response ["192.0.2.1"]
  | _ => QueryRaises DNSError
  end.
Definition lapsed_run : result report * world :=
  main scenario_rnd lapsed_dns (λ _, open_tcp) relisted_file.

(** A line that ends in white space of Unicode, and a dead domain. *)
Definition padded_file : world :=
  World ["a.test" +:+ NBSP +:+ " " +:+ IDEOGRAPHIC_SPACE +:+ LF; "b.test" +:+ LF] [] [].
Definition padded_run : result report * world :=
  main scenario_rnd scenario_dns scenario_tcp padded_file.

(** The state after [Semaphore.eleven_queries]. *)
Definition eleven_state : Semaphore.state :=
  default (Semaphore.init 11) (Semaphore.run Semaphore.eleven_queries (Semaphore.init 11)).

(** The limits of a shell on Linux, where [RLIM_INFINITY] is -1. *)
Definition linux_process : process := Process (1024, 4096) [].

(** * Properties *)

(** ** Python values *)

Lemma any_false (ips : list (option string)) :
  any ips = false ↔ Forall unresolved ips.
Proof.
  unfold any. induction ips as [|o ips IH]; cbn.
  - split; [constructor | done].
  - rewrite orb_false_iff, IH, Forall_cons. done.
Qed.

Lemma any_true (ips : list (option string)) :
  any ips = true ↔ Exists resolved ips.
Proof.
  unfold any. induction ips as [|o ips IH]; cbn.
  - split; [done | by intros ?%Exists_nil].
  - rewrite orb_true_iff, IH, Exists_cons. done.
Qed.

Lemma all_true (ips : list (option string)) :
  all ips = true ↔ Forall resolved ips.
Proof.
  unfold all. induction ips as [|o ips IH]; cbn.
  - split; [constructor | done].
  - rewrite andb_true_iff, IH, Forall_cons. done.
Qed.

Lemma all_false (ips : list (option string)) :
  all ips = false ↔ Exists unresolved ips.
Proof.
  unfold all. induction ips as [|o ips IH]; cbn.
  - split; [done | by intros ?%Exists_nil].
  - rewrite andb_false_iff, IH, Exists_cons. done.
Qed.

Lemma next_filter_first ips :
  any ips = true → ∃ ip, next_filter ips = Ok ip ∧ first_resolved ips ip.
Proof.
  induction ips as [|o ips IH]; [done|].
  unfold any. cbn [existsb next_filter].
  destruct o as [s|].
  - unfold truth at 1, truth_optional.
    destruct (truth s) eqn:Hs.
    + intros _. exists s. split; [done|]. exists [], ips. by split_and!.
    + cbn. intros (ip & -> & before & after & -> & Hb & Hr)%IH.
      exists ip. split; [done|]. exists (Some s :: before), after.
      split_and!; [done | by constructor | done].
  - cbn. intros (ip & -> & before & after & -> & Hb & Hr)%IH.
    exists ip. split; [done|]. exists (None :: before), after.
    split_and!; [done | by constructor | done].
Qed.

(** *** The dictionary *)

Lemma dict_get_set {V} k k' (v : V) d :
  dict_get k' (dict_set k v d) = if decide (k = k') then Some v else dict_get k' d.
Proof.
  induction d as [|[k0 v0] d IH]; cbn.
  - by repeat case_decide.
  - destruct (decide (k0 = k)) as [->|Hne]; cbn.
    + by repeat case_decide.
    + rewrite IH. repeat case_decide; congruence.
Qed.

Lemma dict_get_Some {V} k (v : V) d : dict_get k d = Some v → (k, v) ∈ d.
Proof.
  induction d as [|[k0 v0] d IH]; cbn; [done|].
  case_decide as Hk.
  - intros [= ->]. subst. apply list_elem_of_here.
  - intros H. by apply list_elem_of_further, IH.
Qed.

Lemma dict_get_None {V} k (d : list (string * V)) :
  dict_get k d = None ↔ k ∉ d.*1.
Proof.
  induction d as [|[k0 v0] d IH]; cbn.
  - split; [intros _; apply not_elem_of_nil | done].
  - rewrite not_elem_of_cons. case_decide as Hk.
    + split; [done | by intros [? _]].
    + rewrite IH. split; [by intros ? | by intros [_ ?]].
Qed.

Lemma dict_set_keys {V} k (v : V) d :
  (dict_set k v d).*1 = if decide (k ∈ d.*1) then d.*1 else d.*1 ++ [k].
Proof.
  induction d as [|[k0 v0] d IH]; cbn.
  - rewrite decide_False; [done | apply not_elem_of_nil].
  - destruct (decide (k0 = k)) as [->|Hne]; cbn.
    + rewrite decide_True; [done | apply list_elem_of_here].
    + rewrite IH. destruct (decide (k ∈ d.*1)) as [Hin|Hnin].
      * rewrite decide_True; [done | by apply list_elem_of_further].
      * rewrite decide_False; [done|]. rewrite not_elem_of_cons. naive_solver.
Qed.

Lemma dict_set_NoDup {V} k (v : V) d : NoDup d.*1 → NoDup (dict_set k v d).*1.
Proof.
  intros Hd. rewrite dict_set_keys. case_decide as Hk; [done|].
  apply NoDup_app. split_and!; [done | | apply NoDup_singleton].
  intros x Hx ->%list_elem_of_singleton. done.
Qed.

Lemma dict_get_elem {V} k (v : V) d : NoDup d.*1 → (k, v) ∈ d → dict_get k d = Some v.
Proof.
  induction d as [|[k0 v0] d IH]; cbn; [by intros _ ?%not_elem_of_nil|].
  intros [Hk0 Hd]%NoDup_cons [Heq|Hin]%elem_of_cons.
  - injection Heq as -> ->. by rewrite decide_True.
  - rewrite decide_False; [by apply IH|].
    intros ->. apply Hk0. apply list_elem_of_fmap. by exists (k, v).
Qed.

(** ** The loop of phase 1 *)

Lemma elem_of_snoc {A} (l : list A) (x y : A) : y ∈ l ++ [x] ↔ y ∈ l ∨ y = x.
Proof. by rewrite elem_of_app, list_elem_of_singleton. Qed.

Lemma classify_dns_spec items :
  phase1_inv items (fold_left classify_dns items (∅, [])).1
                   (fold_left classify_dns items (∅, [])).2.
Proof.
  induction items as [|[d0 ips0] items IH] using rev_ind.
  - cbn. split.
    + intros d. split; [set_solver|]. by intros (ips & ?%not_elem_of_nil & _).
    + done.
    + by intros d ips ?%not_elem_of_nil.
    + constructor.
  - rewrite fold_left_app. cbn [fold_left].
    destruct (fold_left classify_dns items (∅, [])) as [dead tcp].
    destruct IH as [Hdead Hsound Hcomplete Hkeys]. cbn in *. unfold classify_dns.
    destruct (any ips0) eqn:Hany; cbn [negb]; [destruct (all ips0) eqn:Hall|]; cbn.
    + (* every entry resolved *)
      split.
      * intros d. rewrite Hdead. split.
        -- intros (ips & Hin & Ha). exists ips. rewrite elem_of_snoc. eauto.
        -- intros (ips & [Hin|[= -> ->]]%elem_of_snoc & Ha); [eauto | congruence].
      * intros d ips Hget. rewrite elem_of_snoc.
        destruct (Hsound d ips Hget) as (? & ? & ?). eauto.
      * intros d ips [Hin|[= -> ->]]%elem_of_snoc Ha Hb; [eauto | congruence].
      * done.
    + (* mixed *)
      split.
      * intros d. rewrite Hdead. split.
        -- intros (ips & Hin & Ha). exists ips. rewrite elem_of_snoc. eauto.
        -- intros (ips & [Hin|[= -> ->]]%elem_of_snoc & Ha); [eauto | congruence].
      * intros d ips. rewrite dict_get_set, elem_of_snoc.
        case_decide as Hd.
        -- intros [= ->]. subst. eauto.
        -- intros Hget. destruct (Hsound d ips Hget) as (? & ? & ?). eauto.
      * intros d ips Hin Ha Hb. rewrite dict_get_set.
        case_decide as Hd; [done|].
        apply elem_of_snoc in Hin as [Hin|[= -> ->]]; [eauto | done].
      * by apply dict_set_NoDup.
    + (* every entry unresolved *)
      split.
      * intros d. rewrite elem_of_union, elem_of_singleton, Hdead. split.
        -- intros [->|(ips & Hin & Ha)].
           ++ exists ips0. rewrite elem_of_snoc. eauto.
           ++ exists ips. rewrite elem_of_snoc. eauto.
        -- intros (ips & [Hin|[= -> ->]]%elem_of_snoc & Ha); eauto.
      * intros d ips Hget. rewrite elem_of_snoc.
        destruct (Hsound d ips Hget) as (? & ? & ?). eauto.
      * intros d ips [Hin|[= -> ->]]%elem_of_snoc Ha Hb; [eauto | congruence].
      * done.
Qed.

(** ** Futures and probes *)

Lemma gather_Ok {A} (futures : list (result A)) rs :
  gather futures = Ok rs ↔ futures = Ok <$> rs.
Proof.
  revert rs. induction futures as [|[a|e] futures IH]; intros rs; cbn.
  - split; [intros [= <-]; done | by destruct rs].
  - destruct (gather futures) as [l|e] eqn:Hg.
    + split.
      * intros [= <-]. cbn. f_equal. by apply IH.
      * destruct rs as [|r rs]; [done|]. cbn. intros [= -> Hrs].
        apply IH in Hrs. congruence.
    + split; [done|]. destruct rs as [|r rs]; [done|]. cbn. intros [= -> Hrs].
      apply IH in Hrs. congruence.
  - split; [done | by destruct rs].
Qed.

Lemma gather_Raise {A} (futures : list (result A)) e :
  Raise e ∈ futures → ∃ e', gather futures = Raise e'.
Proof.
  induction futures as [|[a|e0] futures IH]; cbn.
  - by intros ?%not_elem_of_nil.
  - intros [[=]|Hin]%elem_of_cons. destruct (IH Hin) as [e' ->]. eauto.
  - eauto.
Qed.

Section ProbeLoop.
Variable rnd : nat → Random.source.
Variable net_dns : nat → query → query_outcome.
Variable net_tcp : nat → string → Z → connect_outcome.

Lemma tcp_checks_of_spec ip ports w :
  tcp_checks_of net_tcp ip ports w
  = (Ok (port_futures net_tcp (length (connections w)) ip ports),
     World (list_file w) (stdout w) (connections w ++ map (pair ip) ports)).
Proof.
  revert w. induction ports as [|port ports IH]; intros w.
  - cbn. rewrite app_nil_r. by destruct w.
  - cbn [tcp_checks_of]. unfold mbind, prog_bind, bind, ensure_future, has_tcp_port_open.
    fold (tcp_checks_of net_tcp). rewrite IH. cbn.
    rewrite length_app, <- app_assoc. cbn. unfold port_futures. cbn.
    rewrite Nat.add_0_r. unfold mret, prog_ret, ret. do 3 f_equal.
    apply imap_ext. intros j x _. cbn. do 2 f_equal. lia.
Qed.

(** What the loop of line 139 does on candidates that each hold a
    resolved entry. *)
Lemma tcp_check_all_spec items w :
  Forall (λ item : string * list (option string), any item.2 = true) items →
  ∃ futs conns,
    tcp_check_all net_tcp items w
    = (Ok futs, World (list_file w) (stdout w) (connections w ++ conns))
    ∧ length futs = length items
    ∧ length conns = (length items * length WEB_PORTS)%nat
    ∧ ∀ k d ips, items !! k = Some (d, ips) →
        ∃ ip, first_resolved ips ip
          ∧ futs !! k
            = Some (d, port_futures net_tcp
                         (length (connections w) + k * length WEB_PORTS) ip WEB_PORTS)
          ∧ ∀ j port, WEB_PORTS !! j = Some port →
              conns !! (k * length WEB_PORTS + j)%nat = Some (ip, port).
Proof.
  revert w. induction items as [|[d0 ips0] items IH]; intros w Hany.
  - exists [], []. cbn. rewrite app_nil_r. split_and!; try done. by destruct w.
  - apply Forall_cons in Hany as [Hany0 Hany].
    destruct (next_filter_first ips0 Hany0) as (ip0 & Hnext & Hfirst).
    cbn [tcp_check_all]. unfold mbind, prog_bind, bind.
    rewrite Hnext, tcp_checks_of_spec.
    set (w1 := World _ _ _).
    destruct (IH w1 Hany) as (futs & conns & -> & Hlen & Hconns & Hitems).
    unfold mret, prog_ret, ret. cbv beta iota.
    eexists _, (map (pair ip0) WEB_PORTS ++ conns).
    split_and!.
    + subst w1. cbn [list_file stdout connections]. by rewrite <- app_assoc.
    + cbn [length]. by rewrite Hlen.
    + rewrite length_app, length_map, Hconns. cbn [length]. lia.
    + intros [|k] d ips Hk.
      * injection Hk as -> ->. exists ip0. split_and!; [done | |].
        -- rewrite Nat.mul_0_l, Nat.add_0_r. done.
        -- intros j port Hj. rewrite Nat.mul_0_l, Nat.add_0_l, lookup_app_l.
           ++ by rewrite list_lookup_fmap, Hj.
           ++ rewrite length_map. by eapply lookup_lt_Some.
      * cbn [lookup list_lookup] in Hk.
        destruct (Hitems k d ips Hk) as (ip & Hf & Hfut & Hc).
        exists ip. split_and!; [done | |].
        -- change (futs !! k = Some (d, port_futures net_tcp
              (length (connections w) + S k * length WEB_PORTS) ip WEB_PORTS)).
           rewrite Hfut. subst w1. cbn [connections].
           rewrite length_app, length_map. do 3 f_equal. lia.
        -- intros j port Hj.
           replace (S k * length WEB_PORTS + j)%nat
             with (length (map (pair ip0) WEB_PORTS) + (k * length WEB_PORTS + j))%nat
             by (rewrite length_map; lia).
           rewrite lookup_app_r by lia.
           rewrite <- (Hc j port Hj). f_equal. lia.
Qed.

End ProbeLoop.

(** ** The steps of the script *)

Lemma any_status_false (futures : list (result bool)) status :
  gather futures = Ok status →
  any status = false ↔ Forall (λ future, future = Ok false) futures.
Proof.
  intros ->%gather_Ok. unfold any.
  induction status as [|b status IH]; cbn.
  - split; [constructor | done].
  - rewrite orb_false_iff, Forall_cons, IH. unfold truth, truth_bool, id.
    split; intros [H ?]; split; congruence.
Qed.

Section ScriptSteps.
Variable rnd : nat → Random.source.
Variable net_dns : nat → query → query_outcome.
Variable net_tcp : nat → string → Z → connect_outcome.

(** The file and the output are untouched by the probes. *)
Lemma tcp_check_all_frame items w r w' :
  tcp_check_all net_tcp items w = (r, w') →
  list_file w' = list_file w ∧ stdout w' = stdout w.
Proof.
  revert w r w'. induction items as [|[d ips] items IH]; intros w r w'.
  - by intros [= <- <-].
  - cbn [tcp_check_all]. unfold mbind, prog_bind, bind.
    destruct (next_filter ips) as [ip|e]; [|by intros [= <- <-]].
    rewrite tcp_checks_of_spec.
    destruct (tcp_check_all net_tcp items _) as [[futs|e] w1] eqn:Hrest;
      apply IH in Hrest as [Hf Ho]; by intros [= <- <-].
Qed.

Lemma classify_tcp_all_frame dead futs w r w' :
  classify_tcp_all dead futs w = (r, w') → w' = w.
Proof.
  revert dead. induction futs as [|[d futures] futs IH]; intros dead.
  - by intros [= <- <-].
  - cbn [classify_tcp_all classify_tcp]. unfold mbind, prog_bind, bind.
    destruct (gather futures) as [status|e]; [|by intros [= <- <-]].
    apply IH.
Qed.

(** What the loop of line 150 adds to [dead_domains]. *)
Lemma classify_tcp_all_spec dead futs w dead' w' :
  classify_tcp_all dead futs w = (Ok dead', w') →
  ∀ d, d ∈ dead' ↔
       d ∈ dead ∨ ∃ futures, (d, futures) ∈ futs
                              ∧ Forall (λ future, future = Ok false) futures.
Proof.
  revert dead. induction futs as [|[d0 futures0] futs IH]; intros dead.
  - intros [= <- <-] d. split; [eauto|]. intros [?|(? & ?%not_elem_of_nil & _)]; done.
  - cbn [classify_tcp_all classify_tcp]. unfold mbind, prog_bind, bind.
    destruct (gather futures0) as [status|e] eqn:Hg; [|done].
    unfold mret, prog_ret, ret. cbv beta iota.
    intros Hrest d. rewrite (IH _ Hrest d). clear IH Hrest.
    pose proof (any_status_false futures0 status Hg) as Hst.
    setoid_rewrite elem_of_cons.
    destruct (any status) eqn:Hany; cbn [negb].
    + split.
      * intros [?|(futures & ? & ?)]; eauto 6.
      * intros [?|(futures & [[= -> ->]|?] & Hf)]; eauto.
        apply Hst in Hf. done.
    + rewrite elem_of_union, elem_of_singleton. split.
      * intros [[->|?]|(futures & ? & ?)]; eauto 6.
        right. exists futures0. split; [eauto | by apply Hst].
      * intros [?|(futures & [[= -> ->]|?] & Hf)]; eauto.
Qed.

Lemma main_Ok w rep w' :
  main rnd net_dns net_tcp w = (Ok rep, w') →
  domains rep = map rstrip (list_file w)
  ∧ gather (dns_check_futures rnd net_dns (domains rep)) = Ok (dns_results rep)
  ∧ fold_left classify_dns (zip (domains rep) (dns_results rep)) (∅, [])
    = (dead_dns rep, tcp_check_domain_ips rep)
  ∧ ∃ w1,
      tcp_check_all net_tcp (tcp_check_domain_ips rep) w
      = (Ok (tcp_check_futures rep), w1)
      ∧ classify_tcp_all (dead_dns rep) (tcp_check_futures rep) w1
        = (Ok (dead_domains rep), w1)
      ∧ w' = World (map (λ domain, domain +:+ LF)
                      (filter (λ domain, domain ∉ dead_domains rep)
                         (domains rep)))
                   (stdout w ++ [LF +:+ pretty (size (dead_domains rep))
                                   +:+ " dead domain(s) removed"])
                   (connections w1).
Proof.
  unfold main, run_until_complete, mbind, prog_bind, bind.
  destruct (gather (dns_check_futures _ _ _)) as [ips_all|e] eqn:Hdns; [|done].
  destruct (fold_left classify_dns _ _) as [dead tcp] eqn:Hfold.
  destruct (tcp_check_all net_tcp tcp w) as [[futs|e] w1] eqn:Htcp; [|done].
  destruct (gather (concat _)) as [l|e] eqn:Hg; [|done].
  destruct (classify_tcp_all dead futs w1) as [[dead'|e] w2] eqn:Hcl; [|done].
  pose proof (classify_tcp_all_frame _ _ _ _ _ Hcl) as ->.
  apply tcp_check_all_frame in Htcp as Hframe. destruct Hframe as [Hfile Hout].
  cbn. intros [= <- <-]. cbn. rewrite Hout. split_and!; try done.
  exists w1. done.
Qed.

(** A run that raises leaves the file and the output as they were. *)
Lemma main_Raise w e w' :
  main rnd net_dns net_tcp w = (Raise e, w') →
  list_file w' = list_file w ∧ stdout w' = stdout w.
Proof.
  unfold main, run_until_complete, mbind, prog_bind, bind.
  destruct (gather (dns_check_futures _ _ _)) as [ips_all|e0] eqn:Hdns;
    [|by intros [= <- <-]].
  destruct (fold_left classify_dns _ _) as [dead tcp] eqn:Hfold.
  destruct (tcp_check_all net_tcp tcp w) as [[futs|e0] w1] eqn:Htcp;
    apply tcp_check_all_frame in Htcp as [Hfile Hout]; [|by intros [= <- <-]].
  destruct (gather (concat _)) as [l|e0] eqn:Hg; [|by intros [= <- <-]].
  destruct (classify_tcp_all dead futs w1) as [[dead'|e0] w2] eqn:Hcl.
  - done.
  - apply classify_tcp_all_frame in Hcl as ->. by intros [= <- <-].
Qed.

End ScriptSteps.

(** *** The shuffle is a permutation *)

Lemma insert_Permutation {A} (l : list A) i x y :
  l !! i = Some x → x :: <[i:=y]> l ≡ₚ y :: l.
Proof.
  intros Hi. pose proof (lookup_lt_Some _ _ _ Hi) as Hlt.
  rewrite insert_take_drop by done.
  rewrite <- (take_drop_middle l i x Hi) at 3.
  rewrite !Permutation_middle. apply Permutation_app_head, Permutation_swap.
Qed.

Lemma swap_Permutation {A} (x : list A) i j : Random.swap x i j ≡ₚ x.
Proof.
  unfold Random.swap.
  destruct (x !! i) as [xi|] eqn:Hi; [|done].
  destruct (x !! j) as [xj|] eqn:Hj; [|done].
  apply (Permutation_cons_inv (a := xj)).
  rewrite insert_Permutation; last first.
  { destruct (decide (i = j)) as [->|Hne].
    - apply list_lookup_insert_eq. by eapply lookup_lt_Some.
    - rewrite list_lookup_insert_ne by done. exact Hj. }
  by apply insert_Permutation.
Qed.

Lemma shuffle_from_Permutation {A} src i (x : list A) pos :
  (Random.shuffle_from src i x pos).1 ≡ₚ x.
Proof.
  revert x pos. induction i as [|i IH]; intros x pos; [done|].
  cbn [Random.shuffle_from]. unfold Random.randbelow.
  rewrite IH. apply swap_Permutation.
Qed.

Lemma shuffle_Permutation {A} src (x : list A) pos :
  (Random.shuffle src x pos).1 ≡ₚ x.
Proof. apply shuffle_from_Permutation. Qed.

(** ** The vector of a domain *)

Section VectorLength.
Variable src : Random.source.
Variable dns : query → query_outcome.

(** Completeness: one entry per server pair. *)
Lemma dns_resolve_servers_length domain dns_servers r st ips st' :
  dns_resolve_servers src dns domain dns_servers r st = (Ok ips, st') →
  length ips = (length r + length dns_servers)%nat.
Proof.
  revert r st. induction dns_servers as [|pair dns_servers IH]; intros r st.
  - intros [= <- <-]. cbn. lia.
  - cbn [dns_resolve_servers]. unfold mbind, prog_bind, bind, draw.
    destruct (Random.choice src pair (rng_pos st)) as [dns_server_ip pos'].
    destruct (dns_resolve src dns domain dns_server_ip _) as [[ip|e] st1]; [|done].
    intros ->%IH. rewrite length_app. cbn. lia.
Qed.

Lemma dns_resolve_domain_length domain st ips st' :
  dns_resolve_domain src dns domain st = (Ok ips, st') →
  length ips = length DNS_SERVERS.
Proof.
  unfold dns_resolve_domain, mbind, prog_bind, bind, draw.
  pose proof (shuffle_Permutation src DNS_SERVERS (rng_pos st)) as Hperm.
  destruct (Random.shuffle src DNS_SERVERS (rng_pos st)) as [dns_servers pos'].
  intros ->%dns_resolve_servers_length. cbn [length]. cbn in Hperm.
  by rewrite Hperm.
Qed.

End VectorLength.

Section DnsFutures.
Variable rnd : nat → Random.source.
Variable net_dns : nat → query → query_outcome.

Lemma dns_check_futures_vectors domains ips_all :
  gather (dns_check_futures rnd net_dns domains) = Ok ips_all →
  length ips_all = length domains
  ∧ Forall (λ ips : list (option string), length ips = length DNS_SERVERS) ips_all.
Proof.
  intros Hg%gather_Ok. split.
  - apply (f_equal length) in Hg. unfold dns_check_futures in Hg.
    by rewrite length_imap, length_fmap in Hg.
  - apply Forall_lookup. intros i ips Hi.
    apply (f_equal (λ l, l !! i)) in Hg.
    rewrite list_lookup_fmap, Hi in Hg. unfold dns_check_futures in Hg.
    rewrite list_lookup_imap in Hg.
    destruct (domains !! i) as [domain|]; [|done]. cbn in Hg.
    injection Hg as Hg.
    destruct (dns_resolve_domain _ _ _ _) as [r st'] eqn:Hrun. cbn in Hg. subst r.
    by eapply dns_resolve_domain_length.
Qed.

End DnsFutures.

(** ** The retries of [dns_resolve] *)

Section DnsResolve.
Variable src : Random.source.
Variable dns : query → query_outcome.

Lemma dns_resolve_loop_timeouts domain dns_server attempts rest timeout st :
  (∀ a t, a ∈ attempts → dns (Query domain dns_server a t) = QueryRaises TimeoutError) →
  ∃ timeout' st' qs,
    dns_resolve_loop src dns domain dns_server (attempts ++ rest) timeout st
    = dns_resolve_loop src dns domain dns_server rest timeout' st'
    ∧ sent st' = sent st ++ qs
    ∧ length qs = length attempts
    ∧ sent_to domain dns_server qs.
Proof.
  revert timeout st.
  induction attempts as [|a attempts IH]; intros timeout st Hto.
  - exists timeout, st, []. rewrite app_nil_r. split_and!; try done. constructor.
  - pose proof (Hto a timeout (list_elem_of_here _ _)) as Ha.
    destruct (IH (BASE_DNS_TIMEOUT_S * 100
                  + fst (Random.randint src (-20) 20 (rng_pos st)))
                 (TaskState (snd (Random.randint src (-20) 20 (rng_pos st)))
                            (sent st ++ [Query domain dns_server a timeout])))
      as (t' & st' & qs & Heq & Hsent & Hlen & Hqs).
    { intros a' t Hin. apply Hto. by apply list_elem_of_further. }
    exists t', st', (Query domain dns_server a timeout :: qs).
    split; [|split; [|split]].
    + rewrite <- Heq. cbn [app dns_resolve_loop].
      unfold mbind, prog_bind, bind, send, draw. cbn. rewrite Ha. cbn.
      by destruct (Random.randint src (-20) 20 (rng_pos st)).
    + rewrite Hsent. cbn. by rewrite <- app_assoc.
    + cbn. by rewrite Hlen.
    + constructor; [done | exact Hqs].
Qed.

Lemma attempts_split k :
  (1 ≤ k ≤ MAX_DNS_ATTEMPTS)%nat →
  seq 1 MAX_DNS_ATTEMPTS = seq 1 (k - 1) ++ k :: seq (S k) (MAX_DNS_ATTEMPTS - k).
Proof.
  intros Hk.
  replace MAX_DNS_ATTEMPTS with ((k - 1) + S (MAX_DNS_ATTEMPTS - k))%nat at 1 by lia.
  rewrite seq_app. cbn [seq]. by replace (1 + (k - 1))%nat with k by lia.
Qed.

Lemma dns_resolve_settles domain dns_server st k r :
  (1 ≤ k ≤ MAX_DNS_ATTEMPTS)%nat →
  times_out_before dns domain dns_server k →
  (∀ rest t st0,
     dns_resolve_loop src dns domain dns_server (k :: rest) t st0
     = (r, TaskState (rng_pos st0) (sent st0 ++ [Query domain dns_server k t]))) →
  ∃ st', dns_resolve src dns domain dns_server st = (r, st')
         ∧ issued domain dns_server k st st'.
Proof.
  intros Hk Hbefore Hstep. unfold dns_resolve.
  rewrite (attempts_split k Hk).
  destruct (dns_resolve_loop_timeouts domain dns_server (seq 1 (k - 1))
              (k :: seq (S k) (MAX_DNS_ATTEMPTS - k)) (BASE_DNS_TIMEOUT_S * 100) st)
    as (t' & st1 & qs & -> & Hsent & Hlen & Hqs).
  { intros a t Hin. apply Hbefore. apply elem_of_seq in Hin. lia. }
  rewrite Hstep. eexists. split; [done|].
  exists (qs ++ [Query domain dns_server k t']). cbn [sent].
  rewrite Hsent, <- app_assoc. split_and!; [done | |].
  - rewrite length_app, Hlen, length_seq. cbn. lia.
  - apply Forall_app. split; [done|]. by repeat constructor.
Qed.

(** C5.  Contract of [dns_resolve]: on a server that always times out it
    issues exactly [MAX_DNS_ATTEMPTS] queries and returns unresolved; when
    the attempts before the [k]-th time out and the [k]-th ends in a DNS
    error, it returns unresolved after exactly [k] queries; when the
    [k]-th brings a response, it returns the host of the first record, or
    unresolved when the response has no record, after exactly [k]
    queries. *)
Theorem dns_resolve_contract domain dns_server st :
  (times_out_before dns domain dns_server (S MAX_DNS_ATTEMPTS) →
     ∃ st', dns_resolve src dns domain dns_server st = (Ok None, st')
            ∧ issued domain dns_server MAX_DNS_ATTEMPTS st st')
  ∧ (∀ k, (1 ≤ k ≤ MAX_DNS_ATTEMPTS)%nat →
       times_out_before dns domain dns_server k →
       (∀ t, dns (Query domain dns_server k t) = QueryRaises DNSError) →
       ∃ st', dns_resolve src dns domain dns_server st = (Ok None, st')
              ∧ issued domain dns_server k st st')
  ∧ (∀ k hosts, (1 ≤ k ≤ MAX_DNS_ATTEMPTS)%nat →
       times_out_before dns domain dns_server k →
       (∀ t, dns (Query domain dns_server k t) = Response hosts) →
       ∃ st', dns_resolve src dns domain dns_server st = (Ok (head hosts), st')
              ∧ issued domain dns_server k st st').
Proof.
  split_and!.
  - intros Hto. unfold dns_resolve.
    destruct (dns_resolve_loop_timeouts domain dns_server (seq 1 MAX_DNS_ATTEMPTS)
                [] (BASE_DNS_TIMEOUT_S * 100) st)
      as (t' & st1 & qs & Heq & Hsent & Hlen & Hqs).
    { intros a t Hin. apply Hto. apply elem_of_seq in Hin. lia. }
    rewrite app_nil_r in Heq. rewrite Heq. exists st1. split; [done|].
    exists qs. rewrite length_seq in Hlen. done.
  - intros k Hk Hbefore Herr.
    apply (dns_resolve_settles _ _ _ k); try done.
    intros rest t st0. cbn. unfold mbind, prog_bind, bind, send. cbn.
    by rewrite Herr.
  - intros k hosts Hk Hbefore Hans.
    apply (dns_resolve_settles _ _ _ k); try done.
    intros rest t st0. cbn. unfold mbind, prog_bind, bind, send. cbn.
    rewrite Hans. by destruct hosts.
Qed.

End DnsResolve.

(** ** What a run establishes *)

Lemma zip_lookup_Some {A B} (l : list A) (k : list B) i x y :
  zip l k !! i = Some (x, y) ↔ l !! i = Some x ∧ k !! i = Some y.
Proof.
  rewrite lookup_zip_with_Some. split.
  - by intros (a & b & [= -> ->] & ? & ?).
  - intros [? ?]. by exists x, y.
Qed.

Lemma candidates_resolved items :
  Forall (λ item : string * list (option string), any item.2 = true)
         (fold_left classify_dns items (∅, [])).2.
Proof.
  destruct (classify_dns_spec items) as [_ Hsound _ Hkeys].
  apply Forall_forall. intros [d ips] Hin. cbn.
  apply dict_get_elem in Hin; [|done]. by destruct (Hsound d ips Hin) as (_ & ? & _).
Qed.

Section ProbeKeys.
Variable rnd : nat → Random.source.
Variable net_dns : nat → query → query_outcome.
Variable net_tcp : nat → string → Z → connect_outcome.

Lemma tcp_check_all_keys items w futs w' :
  tcp_check_all net_tcp items w = (Ok futs, w') → futs.*1 = items.*1.
Proof.
  revert w futs w'. induction items as [|[d ips] items IH]; intros w futs w'.
  - by intros [= <- <-].
  - cbn [tcp_check_all]. unfold mbind, prog_bind, bind.
    destruct (next_filter ips) as [ip|e]; [|done].
    rewrite tcp_checks_of_spec.
    destruct (tcp_check_all net_tcp items _) as [[futs'|e] w1] eqn:Hrest; [|done].
    intros [= <- <-]. cbn. f_equal. by eapply IH.
Qed.

Lemma classify_tcp_all_results dead futs w dead' w' :
  classify_tcp_all dead futs w = (Ok dead', w') →
  ∀ d futures, (d, futures) ∈ futs → ∃ status, futures = Ok <$> status.
Proof.
  revert dead. induction futs as [|[d0 futures0] futs IH]; intros dead.
  - by intros _ d futures ?%not_elem_of_nil.
  - cbn [classify_tcp_all classify_tcp]. unfold mbind, prog_bind, bind.
    destruct (gather futures0) as [status|e] eqn:Hg; [|done].
    unfold mret, prog_ret, ret. cbv beta iota.
    intros Hrest d futures [[= -> ->]|Hin]%elem_of_cons.
    + exists status. by apply gather_Ok.
    + by eapply IH.
Qed.

End ProbeKeys.

Section PhaseOne.
Variable rnd : nat → Random.source.
Variable net_dns : nat → query → query_outcome.
Variable net_tcp : nat → string → Z → connect_outcome.

Lemma main_facts w rep w' :
  main rnd net_dns net_tcp w = (Ok rep, w') → run_facts net_tcp w rep w'.
Proof.
  intros (Hdom & Hdns & Hfold & w1 & Htcp & Hcl & ->)%main_Ok.
  apply dns_check_futures_vectors in Hdns as [Hlen Hvec].
  pose proof (classify_dns_spec (zip (domains rep) (dns_results rep))) as Hinv.
  pose proof (candidates_resolved (zip (domains rep) (dns_results rep))) as Hany.
  rewrite Hfold in Hinv, Hany. cbn [fst snd] in Hinv, Hany.
  destruct (tcp_check_all_spec net_tcp _ w Hany)
    as (futs & conns & Htcp' & Hflen & Hclen & Hitems).
  rewrite Htcp in Htcp'. injection Htcp' as <- ->.
  split; try done.
  - by eapply tcp_check_all_keys.
  - by eapply classify_tcp_all_results.
  - by eapply classify_tcp_all_spec.
  - exists conns. done.
Qed.

(** How the line [i] of a run is classified, through its vector. *)
Lemma line_vector w rep w' i d :
  run_facts net_tcp w rep w' →
  domains rep !! i = Some d →
  on_one_line (domains rep) d →
  ∃ ips, dns_results rep !! i = Some ips
    ∧ ips ≠ []
    ∧ ∀ ips', (d, ips') ∈ zip (domains rep) (dns_results rep) ↔ ips' = ips.
Proof.
  intros Hrun Hi Hone.
  destruct (lookup_lt_is_Some_2 (dns_results rep) i) as [ips Hips].
  { rewrite (run_results_length _ _ _ _ Hrun). by eapply lookup_lt_Some. }
  exists ips. split_and!; [done | |].
  - pose proof (run_vectors _ _ _ _ Hrun) as Hvec.
    rewrite Forall_lookup in Hvec. specialize (Hvec i ips Hips).
    by destruct ips.
  - intros ips'. split.
    + intros [j Hj]%list_elem_of_lookup.
      apply zip_lookup_Some in Hj as [Hd Hr].
      rewrite (Hone j i Hd Hi) in Hr. congruence.
    + intros ->. apply list_elem_of_lookup. exists i. by apply zip_lookup_Some.
Qed.

Lemma Forall_resolved_any (ips : list (option string)) :
  ips ≠ [] → Forall resolved ips → any ips = true.
Proof.
  intros Hne Hall. apply any_true. destruct Hall; [done|]. by apply Exists_cons_hd.
Qed.

Lemma in_keys_get {V} d (dict : list (string * V)) :
  d ∈ dict.*1 ↔ ∃ v, dict_get d dict = Some v.
Proof.
  destruct (dict_get d dict) as [v|] eqn:Hget.
  - split; [eauto|]. intros _. apply dict_get_Some in Hget.
    apply list_elem_of_fmap. by exists (d, v).
  - apply dict_get_None in Hget. split; [done | by intros [? ?]].
Qed.

(** C1, amended: the domain is on one line of the list only.  Phase-1
    classification.  In a run that ends well, take a domain [d] that is on
    one line only and its Domain Resolution Vector [ips].
    If every entry is unresolved, [d] is in the Dead Domain Set (already
    after phase 1) and is no TCP-check candidate, so nothing is probed for
    it.  If every entry is resolved, [d] is alive and is no candidate
    either.  [d] is a candidate exactly when one entry is resolved and one
    is unresolved, and it is then remembered with this vector. *)
Theorem phase1_classification w rep w' i d :
  main rnd net_dns net_tcp w = (Ok rep, w') →
  domains rep !! i = Some d →
  on_one_line (domains rep) d →
  ∃ ips,
    dns_results rep !! i = Some ips
    ∧ (Forall unresolved ips →
         d ∈ dead_dns rep ∧ d ∈ dead_domains rep
         ∧ (d ∉ (tcp_check_domain_ips rep).*1) ∧ (d ∉ (tcp_check_futures rep).*1))
    ∧ (Forall resolved ips →
         (d ∉ dead_domains rep)
         ∧ (d ∉ (tcp_check_domain_ips rep).*1) ∧ (d ∉ (tcp_check_futures rep).*1))
    ∧ (d ∈ (tcp_check_domain_ips rep).*1 ↔ Exists resolved ips ∧ Exists unresolved ips)
    ∧ (d ∈ (tcp_check_domain_ips rep).*1 → (d, ips) ∈ tcp_check_domain_ips rep).
Proof.
  intros Hrun%main_facts Hi Hone.
  destruct (line_vector _ _ _ _ _ Hrun Hi Hone) as (ips & Hips & Hne & Hitems).
  destruct (run_phase1 _ _ _ _ Hrun) as [Hdead Hsound Hcomplete Hkeys].
  pose proof (run_dead _ _ _ _ Hrun) as Hfinal.
  pose proof (run_keys _ _ _ _ Hrun) as Hfk.
  assert (Hcand : d ∈ (tcp_check_domain_ips rep).*1 →
                  (d, ips) ∈ tcp_check_domain_ips rep
                  ∧ any ips = true ∧ all ips = false).
  { intros [ips' Hget]%in_keys_get.
    destruct (Hsound d ips' Hget) as (Hin & Ha & Hb).
    apply Hitems in Hin as ->. split; [by apply dict_get_Some | done]. }
  assert (Hfut : d ∉ (tcp_check_domain_ips rep).*1 →
                 ∀ futures, (d, futures) ∉ tcp_check_futures rep).
  { intros Hnot futures Hin. apply Hnot. rewrite <- Hfk.
    apply list_elem_of_fmap. by exists (d, futures). }
  exists ips. split_and!; [done | | | |].
  - intros Hun%any_false.
    assert (d ∉ (tcp_check_domain_ips rep).*1) as Hnot.
    { intros (_ & Ha & _)%Hcand. congruence. }
    assert (d ∈ dead_dns rep) as Hd.
    { apply Hdead. exists ips. split; [by apply Hitems | done]. }
    split_and!; [done | | done | by rewrite Hfk].
    apply Hfinal. by left.
  - intros Hre. pose proof (Forall_resolved_any ips Hne Hre) as Ha.
    apply all_true in Hre.
    assert (d ∉ (tcp_check_domain_ips rep).*1) as Hnot.
    { intros (_ & _ & Hb)%Hcand. congruence. }
    split_and!; [| done | by rewrite Hfk].
    intros [(ips' & Hin & Ha')%Hdead | (futures & Hin & _)]%Hfinal.
    + apply Hitems in Hin as ->. congruence.
    + by eapply Hfut.
  - split.
    + intros (_ & Ha & Hb)%Hcand. split; [by apply any_true | by apply all_false].
    + intros [Ha%any_true Hb%all_false]. apply in_keys_get.
      apply (Hcomplete d ips); [by apply Hitems | done | done].
  - by intros (? & _)%Hcand.
Qed.

End PhaseOne.

(** ** The connections of a run *)

Lemma on_connect_false o :
  on_connect o = Ok false ↔ ∃ e, o = ConnectRaises e ∧ benign e.
Proof.
  unfold benign. split.
  - destruct o as [|e]; [done|]. intros He. exists e. split; [done|].
    destruct e; cbn in He; try done; eauto.
    case_decide as Herrno; [|done]. subst. eauto.
  - by intros (e & -> & [-> | [-> | ->]]).
Qed.

Lemma on_connect_true o : on_connect o = Ok true ↔ o = Connected.
Proof.
  split; [|by intros ->].
  destruct o as [|e]; [done|]. destruct e; cbn; try done. by case_decide.
Qed.

Lemma on_connect_fatal e : ¬ benign e → on_connect (ConnectRaises e) = Raise e.
Proof.
  unfold benign. intros Hb. destruct e; cbn; try done; try (exfalso; eauto; fail).
  case_decide as He; [|done]. subst. exfalso. eauto.
Qed.

Section Connections.
Variable rnd : nat → Random.source.
Variable net_dns : nat → query → query_outcome.
Variable net_tcp : nat → string → Z → connect_outcome.

Lemma port_futures_lookup base ip ports j port :
  ports !! j = Some port →
  port_futures net_tcp base ip ports !! j
  = Some (on_connect (net_tcp (base + j) ip port)).
Proof. intros Hj. unfold port_futures. by rewrite list_lookup_imap, Hj. Qed.

(** Every connection of a run that ends well was answered by an open
    port or by a benign error. *)
Lemma run_connections_benign w rep w' k ip port e :
  run_facts net_tcp w rep w' →
  (length (connections w) ≤ k)%nat →
  connections w' !! k = Some (ip, port) →
  net_tcp k ip port = ConnectRaises e →
  benign e.
Proof.
  intros Hrun Hk Hconn Hnet.
  destruct (run_probes _ _ _ _ Hrun) as (conns & Hw' & Hlen & Hitems).
  rewrite Hw', lookup_app_r in Hconn by done.
  set (n := (k - length (connections w))%nat) in *.
  pose proof (lookup_lt_Some _ _ _ Hconn) as Hn. rewrite Hlen in Hn.
  change (length WEB_PORTS) with 2%nat in *.
  assert (n = (n / 2 * 2 + n `mod` 2))%nat as Hdiv.
  { pose proof (Nat.div_mod_eq n 2). lia. }
  assert (n / 2 < length (tcp_check_domain_ips rep))%nat as Hq.
  { apply Nat.Div0.div_lt_upper_bound. lia. }
  assert (n `mod` 2 < 2)%nat as Hr by (apply Nat.mod_upper_bound; lia).
  destruct (lookup_lt_is_Some_2 _ _ Hq) as [[d ips] Hitem].
  destruct (lookup_lt_is_Some_2 WEB_PORTS (n `mod` 2) Hr) as [port' Hport].
  destruct (Hitems _ d ips Hitem) as (ip' & _ & Hfut & Hc).
  specialize (Hc _ port' Hport). rewrite <- Hdiv, Hconn in Hc.
  injection Hc as <- <-.
  assert ((d, port_futures net_tcp (length (connections w) + n / 2 * 2) ip WEB_PORTS)
          ∈ tcp_check_futures rep) as Hin.
  { apply list_elem_of_lookup. eauto. }
  destruct (run_results _ _ _ _ Hrun _ _ Hin) as [status Hst].
  apply (f_equal (λ l, l !! (n `mod` 2)%nat)) in Hst.
  rewrite (port_futures_lookup _ _ _ _ port Hport), list_lookup_fmap in Hst.
  replace (length (connections w) + n / 2 * 2 + n `mod` 2)%nat with k in Hst by lia.
  rewrite Hnet in Hst.
  destruct (status !! (n `mod` 2)%nat) as [[]|]; [| |done]; injection Hst as Hst.
  - by apply (on_connect_true (ConnectRaises e)) in Hst.
  - apply (on_connect_false (ConnectRaises e)) in Hst as (e' & [= <-] & He). done.
Qed.
End Connections.

(** ** The two phases *)

Lemma string_app_inj_r (s1 s2 t : string) : s1 +:+ t = s2 +:+ t → s1 = s2.
Proof.
  intros H. apply (f_equal String.list_ascii_of_string) in H.
  assert (Happ : ∀ a b, String.list_ascii_of_string (a +:+ b)
                 = String.list_ascii_of_string a ++ String.list_ascii_of_string b).
  { intros a b. induction a as [|c a IH]; [done|].
    change (String c a +:+ b) with (String c (a +:+ b)).
    cbn [String.list_ascii_of_string]. by rewrite IH. }
  rewrite !Happ in H. apply app_inv_tail in H.
  rewrite <- (String.string_of_list_ascii_of_string s1),
          <- (String.string_of_list_ascii_of_string s2). by rewrite H.
Qed.

Section PhaseTwo.
Variable rnd : nat → Random.source.
Variable net_dns : nat → query → query_outcome.
Variable net_tcp : nat → string → Z → connect_outcome.

Lemma fatal_connection_raises w r w' k ip port e :
  main rnd net_dns net_tcp w = (r, w') →
  (length (connections w) ≤ k)%nat →
  connections w' !! k = Some (ip, port) →
  net_tcp k ip port = ConnectRaises e →
  ¬ benign e →
  ∃ e', r = Raise e'.
Proof.
  intros Hmain Hk Hconn Hnet Hfatal. destruct r as [rep|e']; [|eauto].
  apply main_facts in Hmain. exfalso. apply Hfatal.
  by eapply run_connections_benign.
Qed.

(** C3.  Error policy of [has_tcp_port_open]: it returns [False] exactly
    when the connection ends in connection refused, timeout or host
    unreachable; any other error is raised again as it is; and a run in
    which a connection ends in such an error ends by raising. *)
Theorem tcp_error_policy :
  (∀ ip port w,
     let o := net_tcp (length (connections w)) ip port in
     ((has_tcp_port_open net_tcp ip port w).1 = Ok false
      ↔ ∃ e, o = ConnectRaises e ∧ benign e)
     ∧ (∀ e, o = ConnectRaises e → ¬ benign e →
          (has_tcp_port_open net_tcp ip port w).1 = Raise e))
  ∧ (∀ w r w' k ip port e,
       main rnd net_dns net_tcp w = (r, w') →
       (length (connections w) ≤ k)%nat →
       connections w' !! k = Some (ip, port) →
       net_tcp k ip port = ConnectRaises e →
       ¬ benign e →
       ∃ e', r = Raise e').
Proof.
  split.
  - intros ip port w o. unfold has_tcp_port_open. cbn [fst]. split.
    + apply on_connect_false.
    + intros e He Hfatal. subst o. rewrite He. by apply on_connect_fatal.
  - intros w r w' k ip port e. apply fatal_connection_raises.
Qed.

(** C4.  Fail-fast: when a connection of phase 2 ends in an error that is
    not benign, the run raises and the list file is as it was; a run that
    raises, for whatever reason, leaves file and output untouched; the
    file is rewritten, without the dead domains, only by a run that ends
    well. *)
Theorem fail_fast w r w' :
  main rnd net_dns net_tcp w = (r, w') →
  (∀ k ip port e,
     (length (connections w) ≤ k)%nat →
     connections w' !! k = Some (ip, port) →
     net_tcp k ip port = ConnectRaises e →
     ¬ benign e →
     (∃ e', r = Raise e') ∧ list_file w' = list_file w ∧ stdout w' = stdout w)
  ∧ (∀ e, r = Raise e → list_file w' = list_file w ∧ stdout w' = stdout w)
  ∧ (∀ rep, r = Ok rep →
       list_file w'
       = map (λ domain, domain +:+ LF)
           (filter (λ domain, domain ∉ dead_domains rep) (domains rep))).
Proof.
  intros Hmain. split_and!.
  - intros k ip port e Hk Hconn Hnet Hfatal.
    destruct (fatal_connection_raises _ _ _ _ _ _ _ Hmain Hk Hconn Hnet Hfatal)
      as [e' ->].
    split; [eauto|]. by eapply main_Raise.
  - intros e ->. by eapply main_Raise.
  - intros rep ->. apply main_facts in Hmain. by destruct Hmain.
Qed.

(** C9.  The address of a candidate is always found: whatever the lines
    and the DNS results, every entry of [tcp_check_domain_ips] has a first
    resolved address, [next(filter(None, ips))] returns it, and the loop
    that launches the probes does not raise. *)
Theorem candidate_address_found (domains : list string)
    (ips_all : list (list (option string))) (w : world) :
  let tcp_check_domain_ips := (fold_left classify_dns (zip domains ips_all) (∅, [])).2 in
  Forall (λ item : string * list (option string),
            ∃ ip, next_filter item.2 = Ok ip ∧ first_resolved item.2 ip)
         tcp_check_domain_ips
  ∧ ∃ futures w', tcp_check_all net_tcp tcp_check_domain_ips w = (Ok futures, w').
Proof.
  intros tcp. pose proof (candidates_resolved (zip domains ips_all)) as Hany.
  fold tcp in Hany. split.
  - eapply Forall_impl; [exact Hany|]. intros item. apply next_filter_first.
  - destruct (tcp_check_all_spec net_tcp tcp w Hany) as (futs & conns & -> & _).
    eauto.
Qed.

(** C2, amended: the candidate is on one line of the list only.  Phase-2
    classification.  In a run that ends well, for the [k]-th TCP-check
    candidate [d] (on one line only) with vector [ips]: the
    address probed is the first resolved entry of [ips]; one connection per
    configured web port is made to it, and the run makes no other
    connection; the future of each port holds what [has_tcp_port_open]
    makes of that connection; and [d] is in the Dead Domain Set exactly
    when no future reports an open port. *)
Theorem phase2_classification w rep w' k d ips :
  main rnd net_dns net_tcp w = (Ok rep, w') →
  tcp_check_domain_ips rep !! k = Some (d, ips) →
  on_one_line (domains rep) d →
  let base := (length (connections w) + k * length WEB_PORTS)%nat in
  ∃ ip futures,
    first_resolved ips ip
    ∧ tcp_check_futures rep !! k = Some (d, futures)
    ∧ length futures = length WEB_PORTS
    ∧ (∀ j port, WEB_PORTS !! j = Some port →
         connections w' !! (base + j)%nat = Some (ip, port)
         ∧ futures !! j = Some (on_connect (net_tcp (base + j)%nat ip port)))
    ∧ length (connections w')
      = (length (connections w)
         + length (tcp_check_domain_ips rep) * length WEB_PORTS)%nat
    ∧ (d ∈ dead_domains rep ↔ Ok true ∉ futures).
Proof.
  intros Hrun%main_facts Hk Hone base.
  destruct (run_probes _ _ _ _ Hrun) as (conns & Hw' & Hlen & Hitems).
  destruct (Hitems k d ips Hk) as (ip & Hfirst & Hfut & Hconns).
  fold base in Hfut.
  exists ip, (port_futures net_tcp base ip WEB_PORTS).
  assert ((d, port_futures net_tcp base ip WEB_PORTS) ∈ tcp_check_futures rep) as Hin.
  { apply list_elem_of_lookup. eauto. }
  destruct (run_results _ _ _ _ Hrun _ _ Hin) as [status Hstatus].
  split_and!; [done | done | | | |].
  - unfold port_futures. by rewrite length_imap.
  - intros j port Hj. split.
    + rewrite Hw'. unfold base.
      rewrite <- Nat.add_assoc, lookup_app_r by lia.
      rewrite <- (Hconns j port Hj). f_equal. lia.
    + by apply port_futures_lookup.
  - by rewrite Hw', length_app, Hlen.
  - (* the domain is not dead by DNS, and its futures are these *)
    destruct (run_phase1 _ _ _ _ Hrun) as [Hdead Hsound _ Hkeys].
    assert (dict_get d (tcp_check_domain_ips rep) = Some ips) as Hget.
    { apply dict_get_elem; [done|]. apply list_elem_of_lookup. eauto. }
    destruct (Hsound d ips Hget) as (Hitem & Ha & Hb).
    apply list_elem_of_lookup in Hitem as [i Hi].
    apply zip_lookup_Some in Hi as [Hdi Hri].
    assert (d ∉ dead_dns rep) as Hnot.
    { intros (ips' & [i' Hi']%list_elem_of_lookup & Ha')%Hdead.
      apply zip_lookup_Some in Hi' as [Hdi' Hri'].
      rewrite (Hone _ _ Hdi' Hdi) in Hri'. congruence. }
    assert (∀ futures, (d, futures) ∈ tcp_check_futures rep →
                       futures = port_futures net_tcp base ip WEB_PORTS) as Huniq.
    { intros futures Hin'.
      assert (NoDup (tcp_check_futures rep).*1) as Hnd
        by (rewrite (run_keys _ _ _ _ Hrun); done).
      apply (dict_get_elem _ _ _ Hnd) in Hin, Hin'. congruence. }
    rewrite (run_dead _ _ _ _ Hrun). split.
    + intros [?|(futures & Hin' & Hall)]; [done|].
      rewrite (Huniq _ Hin') in Hall. rewrite Forall_forall in Hall.
      intros Hopen%Hall. done.
    + intros Hclosed. right. eexists. split; [exact Hin|].
      rewrite Hstatus in Hclosed |- *. apply Forall_forall.
      intros future (b & -> & Hb')%list_elem_of_fmap.
      destruct b; [|done]. exfalso. apply Hclosed.
      apply list_elem_of_fmap. eauto.
Qed.

End PhaseTwo.

(** ** The three classes and the file *)

Lemma elem_of_dead_via_tcp rep d :
  d ∈ dead_via_tcp rep ↔
  ∃ futures, (d, futures) ∈ tcp_check_futures rep
             ∧ Forall (λ future, future = Ok false) futures.
Proof.
  unfold dead_via_tcp. rewrite elem_of_list_to_set, list_elem_of_fmap. split.
  - intros ([d' futures] & -> & [Hall Hin]%list_elem_of_filter). eauto.
  - intros (futures & Hin & Hall). exists (d, futures). split; [done|].
    by apply list_elem_of_filter.
Qed.

Lemma elem_of_alive rep d :
  d ∈ alive rep ↔ d ∈ domains rep ∧ d ∉ dead_domains rep.
Proof.
  unfold alive. rewrite elem_of_list_to_set, list_elem_of_filter. tauto.
Qed.

Lemma remove_dups_length_le {A} `{EqDecision A} (l : list A) :
  (length (remove_dups l) ≤ length l)%nat.
Proof.
  induction l as [|x l IH]; cbn; [done|]. case_decide; cbn; lia.
Qed.

Section Classes.
Variable rnd : nat → Random.source.
Variable net_dns : nat → query → query_outcome.
Variable net_tcp : nat → string → Z → connect_outcome.

Lemma dead_dns_vector w rep w' d :
  run_facts net_tcp w rep w' →
  d ∈ dead_dns rep →
  ∃ i ips, domains rep !! i = Some d ∧ dns_results rep !! i = Some ips
           ∧ any ips = false.
Proof.
  intros Hrun (ips & [i Hi]%list_elem_of_lookup & Ha)%(inv_dead _ _ _ (run_phase1 _ _ _ _ Hrun)).
  apply zip_lookup_Some in Hi as [? ?]. eauto.
Qed.

Lemma candidate_vector w rep w' d futures :
  run_facts net_tcp w rep w' →
  (d, futures) ∈ tcp_check_futures rep →
  ∃ i ips, domains rep !! i = Some d ∧ dns_results rep !! i = Some ips
           ∧ any ips = true ∧ all ips = false.
Proof.
  intros Hrun Hin.
  assert (d ∈ (tcp_check_domain_ips rep).*1) as [ips Hget]%in_keys_get.
  { rewrite <- (run_keys _ _ _ _ Hrun). apply list_elem_of_fmap. by exists (d, futures). }
  destruct (inv_tcp_sound _ _ _ (run_phase1 _ _ _ _ Hrun) d ips Hget)
    as ([i Hi]%list_elem_of_lookup & Ha & Hb).
  apply zip_lookup_Some in Hi as [? ?]. eauto 6.
Qed.

Lemma dead_is_listed w rep w' d :
  run_facts net_tcp w rep w' → d ∈ dead_domains rep → d ∈ domains rep.
Proof.
  intros Hrun [Hd|(futures & Hin & _)]%(run_dead _ _ _ _ Hrun).
  - destruct (dead_dns_vector _ _ _ _ Hrun Hd) as (i & ips & Hi & _).
    by eapply list_elem_of_lookup_2.
  - destruct (candidate_vector _ _ _ _ _ Hrun Hin) as (i & ips & Hi & _).
    by eapply list_elem_of_lookup_2.
Qed.

(** C7.  Classification exhaustiveness: when the lines are pairwise
    distinct, the domains dead by DNS, the domains dead by TCP and the
    domains written back are pairwise disjoint, their union is the set of
    the lines, and the Dead Domain Set is the union of the first two. *)
Theorem classification_exhaustive w rep w' :
  main rnd net_dns net_tcp w = (Ok rep, w') →
  NoDup (domains rep) →
  dead_dns rep ∪ dead_via_tcp rep ∪ alive rep = list_to_set (domains rep)
  ∧ dead_dns rep ## dead_via_tcp rep
  ∧ dead_dns rep ## alive rep
  ∧ dead_via_tcp rep ## alive rep
  ∧ dead_domains rep = dead_dns rep ∪ dead_via_tcp rep.
Proof.
  intros Hrun%main_facts Hnodup.
  assert (Hfinal : ∀ d, d ∈ dead_domains rep ↔ d ∈ dead_dns rep ∨ d ∈ dead_via_tcp rep).
  { intros d. rewrite elem_of_dead_via_tcp. apply (run_dead _ _ _ _ Hrun). }
  assert (Hlisted : ∀ d, d ∈ dead_domains rep → d ∈ domains rep)
    by (intros d; by eapply dead_is_listed).
  split_and!.
  - apply set_eq. intros d.
    rewrite !elem_of_union, elem_of_alive, elem_of_list_to_set.
    destruct (decide (d ∈ dead_domains rep)) as [Hd|Hd].
    + pose proof (Hlisted d Hd). pose proof (proj1 (Hfinal d) Hd). tauto.
    + pose proof Hd as Hd'. rewrite Hfinal in Hd'. tauto.
  - intros d Hdns (futures & Hin & _)%elem_of_dead_via_tcp.
    destruct (dead_dns_vector _ _ _ _ Hrun Hdns) as (i & ips & Hi & Hr & Ha).
    destruct (candidate_vector _ _ _ _ _ Hrun Hin) as (j & ips' & Hj & Hr' & Ha' & _).
    rewrite (NoDup_lookup _ i j d Hnodup Hi Hj) in Hr. congruence.
  - intros d Hdns [_ Hnot]%elem_of_alive. apply Hnot, Hfinal. by left.
  - intros d Htcp [_ Hnot]%elem_of_alive. apply Hnot, Hfinal. by right.
  - apply set_eq. intros d. by rewrite elem_of_union.
Qed.

(** C10.  Duplicate lines: no line of a dead domain is written back,
    however often it occurs; the lines removed are all the lines of dead
    domains; the count printed is the size of the Dead Domain Set, that is
    the number of distinct dead domains, which is at most the number of
    lines removed. *)
Theorem duplicate_lines w rep w' :
  main rnd net_dns net_tcp w = (Ok rep, w') →
  let dead_lines := filter (λ domain, domain ∈ dead_domains rep) (domains rep) in
  (∀ d, d ∈ dead_domains rep → d +:+ LF ∉ list_file w')
  ∧ (length (list_file w') + length dead_lines)%nat = length (domains rep)
  ∧ last (stdout w')
    = Some (LF +:+ pretty (size (dead_domains rep)) +:+ " dead domain(s) removed")
  ∧ size (dead_domains rep) = length (remove_dups dead_lines)
  ∧ (size (dead_domains rep) ≤ length dead_lines)%nat.
Proof.
  intros Hrun%main_facts dead_lines.
  assert (Hsize : size (dead_domains rep) = length (remove_dups dead_lines)).
  { rewrite <- (size_list_to_set (C := gset string) (remove_dups dead_lines))
      by apply NoDup_remove_dups.
    f_equal. apply set_eq. intros d.
    rewrite elem_of_list_to_set, elem_of_remove_dups.
    unfold dead_lines. rewrite list_elem_of_filter. split; [|tauto].
    intros Hd. split; [done | by eapply dead_is_listed]. }
  split_and!.
  - intros d Hd. rewrite (run_file _ _ _ _ Hrun).
    intros (d' & ->%string_app_inj_r & [Hnot _]%list_elem_of_filter)%list_elem_of_fmap.
    done.
  - rewrite (run_file _ _ _ _ Hrun), length_map. unfold dead_lines.
    rewrite <- (filter_app_complement (λ domain, domain ∈ dead_domains rep) (domains rep))
      at 3.
    rewrite length_app. lia.
  - rewrite (run_stdout _ _ _ _ Hrun). apply last_snoc.
  - done.
  - rewrite Hsize. apply remove_dups_length_le.
Qed.

End Classes.

(** ** Two runs on a mocked network *)

Section MockedDns.
Variable mock_dns : string → string → query_outcome.
Variable mock_tcp : string → Z → connect_outcome.

Lemma dns_resolve_mocked src domain dns_server st :
  (dns_resolve src (stateless_dns mock_dns) domain dns_server st).1
  = answer (mock_dns domain dns_server).
Proof.
  destruct (mock_dns domain dns_server) as [hosts|e] eqn:Hmock.
  - unfold dns_resolve. cbn [seq MAX_DNS_ATTEMPTS dns_resolve_loop].
    unfold mbind, prog_bind, bind, send, stateless_dns. cbn. rewrite Hmock. by destruct hosts.
  - destruct (decide (e = TimeoutError)) as [->|Hne].
    + unfold dns_resolve.
      destruct (dns_resolve_loop_timeouts src (stateless_dns mock_dns) domain dns_server
                  (seq 1 MAX_DNS_ATTEMPTS) [] (BASE_DNS_TIMEOUT_S * 100) st)
        as (t' & st1 & qs & Heq & _).
      { intros a t _. unfold stateless_dns. done. }
      rewrite app_nil_r in Heq. by rewrite Heq.
    + unfold dns_resolve. cbn [seq MAX_DNS_ATTEMPTS dns_resolve_loop].
      unfold mbind, prog_bind, bind, send, stateless_dns. cbn. rewrite Hmock.
      by destruct e.
Qed.

Hypothesis pair_alike :
  ∀ domain pair, pair ∈ DNS_SERVERS → mock_dns domain pair.1 = mock_dns domain pair.2.

Lemma dns_resolve_servers_mocked src domain dns_servers r st :
  dns_servers ⊆ DNS_SERVERS →
  (dns_resolve_servers src (stateless_dns mock_dns) domain dns_servers r st).1
  = match gather (answers mock_dns domain dns_servers) with
    | Ok ips => Ok (r ++ ips)
    | Raise e => Raise e
    end.
Proof.
  revert r st. induction dns_servers as [|pair dns_servers IH]; intros r st Hsub.
  - cbn. by rewrite app_nil_r.
  - cbn [dns_resolve_servers answers map gather].
    unfold mbind, prog_bind, bind, draw, Random.choice, Random.randbelow.
    set (dns_server_ip := match _ with O => pair.1 | _ => pair.2 end).
    assert (mock_dns domain dns_server_ip = mock_dns domain pair.1) as Hip.
    { subst dns_server_ip. destruct (_ `mod` _)%nat; [done|].
      symmetry. apply pair_alike, Hsub, list_elem_of_here. }
    pose proof (dns_resolve_mocked src domain dns_server_ip
                  (TaskState (S (rng_pos st)) (sent st))) as Hres.
    rewrite Hip in Hres.
    destruct (dns_resolve src (stateless_dns mock_dns) domain dns_server_ip _)
      as [res st1].
    cbn [fst] in Hres. subst res.
    destruct (answer (mock_dns domain pair.1)) as [ip|e]; [|done].
    rewrite IH by (intros x Hx; apply Hsub; by apply list_elem_of_further).
    fold (answers mock_dns domain dns_servers).
    destruct (gather (answers mock_dns domain dns_servers)) as [ips|e]; [|done].
    by rewrite <- app_assoc.
Qed.

Lemma dns_resolve_domain_mocked src domain st :
  ∃ l, l ≡ₚ DNS_SERVERS
       ∧ (dns_resolve_domain src (stateless_dns mock_dns) domain st).1
         = gather (answers mock_dns domain l).
Proof.
  unfold dns_resolve_domain, mbind, prog_bind, bind, draw.
  pose proof (shuffle_Permutation src DNS_SERVERS (rng_pos st)) as Hperm.
  destruct (Random.shuffle src DNS_SERVERS (rng_pos st)) as [l pos'].
  cbn [fst] in Hperm. exists l. split; [done|].
  rewrite dns_resolve_servers_mocked.
  - by destruct (gather (answers mock_dns domain l)).
  - intros x Hx. by rewrite <- Hperm.
Qed.

End MockedDns.

Lemma omap_unOk {A} (l : list A) : omap unOk (Ok <$> l) = l.
Proof. induction l as [|a l IH]; cbn; [done | by rewrite IH]. Qed.

Lemma gather_Permutation {A} (l1 l2 : list (result A)) :
  l1 ≡ₚ l2 → same_outcome (gather l1) (gather l2).
Proof.
  intros Hperm.
  destruct (gather l1) as [v1|e1] eqn:H1, (gather l2) as [v2|e2] eqn:H2.
  - apply gather_Ok in H1, H2. subst. constructor.
    apply (omap_Permutation unOk) in Hperm. by rewrite !omap_unOk in Hperm.
  - apply gather_Ok in H1. subst.
    assert (∃ e, Raise e ∈ l2) as [e He].
    { clear Hperm. induction l2 as [|[a|e] l2 IH]; cbn in H2; [done | | ].
      - destruct (gather l2); [done|]. destruct IH as [e' ?]; [done|].
        exists e'. by apply list_elem_of_further.
      - exists e. apply list_elem_of_here. }
    rewrite <- Hperm in He. by apply list_elem_of_fmap in He as (? & ? & _).
  - apply gather_Ok in H2. subst.
    assert (∃ e, Raise e ∈ l1) as [e He].
    { clear Hperm. induction l1 as [|[a|e] l1 IH]; cbn in H1; [done | | ].
      - destruct (gather l1); [done|]. destruct IH as [e' ?]; [done|].
        exists e'. by apply list_elem_of_further.
      - exists e. apply list_elem_of_here. }
    rewrite Hperm in He. by apply list_elem_of_fmap in He as (? & ? & _).
  - constructor.
Qed.

Section MockedVectors.
Variable mock_dns : string → string → query_outcome.
Variable mock_tcp : string → Z → connect_outcome.

Hypothesis pair_alike :
  ∀ domain pair, pair ∈ DNS_SERVERS → mock_dns domain pair.1 = mock_dns domain pair.2.
Hypothesis address_alike :
  ∀ domain pair1 pair2 ip1 ip2 hosts1 hosts2 port,
    pair1 ∈ DNS_SERVERS → pair2 ∈ DNS_SERVERS →
    mock_dns domain pair1.1 = Response (ip1 :: hosts1) →
    mock_dns domain pair2.1 = Response (ip2 :: hosts2) →
    mock_tcp ip1 port = mock_tcp ip2 port.

Lemma dns_resolve_domain_alike src1 src2 domain st1 st2 :
  alike_outcome mock_dns domain
    (dns_resolve_domain src1 (stateless_dns mock_dns) domain st1).1
    (dns_resolve_domain src2 (stateless_dns mock_dns) domain st2).1.
Proof.
  destruct (dns_resolve_domain_mocked mock_dns pair_alike src1 domain st1)
    as (l1 & Hl1 & ->).
  destruct (dns_resolve_domain_mocked mock_dns pair_alike src2 domain st2)
    as (l2 & Hl2 & ->).
  assert (answers mock_dns domain l1 ≡ₚ answers mock_dns domain l2) as Hperm.
  { unfold answers. by rewrite Hl1, Hl2. }
  pose proof (gather_Permutation _ _ Hperm) as Hsame.
  destruct (gather (answers mock_dns domain l1)) as [ips1|e1] eqn:Hg1,
           (gather (answers mock_dns domain l2)) as [ips2|e2] eqn:Hg2;
    inversion_clear Hsame; cbn; [|done].
  split; [done|]. apply gather_Ok in Hg1.
  apply Forall_forall. intros o Ho.
  assert (Ok o ∈ answers mock_dns domain l1) as Hin.
  { rewrite Hg1. apply list_elem_of_fmap. eauto. }
  apply list_elem_of_fmap in Hin as (pair & Hpair & Hin).
  exists pair. split; [by rewrite <- Hl1 | done].
Qed.

(** Vectors that are alike are classified alike, and the addresses taken
    from them answer alike on every port. *)
Lemma alike_any domain ips1 ips2 :
  alike mock_dns domain ips1 ips2 → any ips1 = any ips2.
Proof.
  intros [Hperm _]. apply eq_true_iff_eq. rewrite !any_true. by rewrite Hperm.
Qed.

Lemma alike_all domain ips1 ips2 :
  alike mock_dns domain ips1 ips2 → all ips1 = all ips2.
Proof.
  intros [Hperm _]. apply eq_true_iff_eq. rewrite !all_true. by rewrite Hperm.
Qed.

Lemma next_filter_elem ips ip : next_filter ips = Ok ip → Some ip ∈ ips.
Proof.
  induction ips as [|[s|] ips IH]; cbn; [done | |].
  - destruct (truth s).
    + intros [= ->]. apply list_elem_of_here.
    + intros H. by apply list_elem_of_further, IH.
  - intros H. by apply list_elem_of_further, IH.
Qed.

Lemma alike_next_filter domain ips1 ips2 ip1 ip2 port :
  alike mock_dns domain ips1 ips2 →
  next_filter ips1 = Ok ip1 → next_filter ips2 = Ok ip2 →
  mock_tcp ip1 port = mock_tcp ip2 port.
Proof.
  intros [Hperm Hans] H1%next_filter_elem H2%next_filter_elem.
  rewrite <- Hperm in H2. rewrite Forall_forall in Hans.
  destruct (Hans _ H1) as (pair1 & Hp1 & Ha1).
  destruct (Hans _ H2) as (pair2 & Hp2 & Ha2).
  assert (∀ o ip, answer o = Ok (Some ip) → ∃ hosts, o = Response (ip :: hosts)) as Hresp.
  { intros [[|h hosts]|e] ip; cbn; [done | intros [= ->]; eauto | by destruct e]. }
  apply Hresp in Ha1 as [hosts1 Ha1], Ha2 as [hosts2 Ha2].
  exact (address_alike domain pair1 pair2 ip1 ip2 hosts1 hosts2 port Hp1 Hp2 Ha1 Ha2).
Qed.

End MockedVectors.

Lemma next_filter_none ips : any ips = false → next_filter ips = Raise StopIteration.
Proof.
  unfold any. induction ips as [|o ips IH]; [done|].
  cbn [existsb]. intros [Ho Hrest]%orb_false_iff.
  destruct o as [s|]; cbn [next_filter]; [|by apply IH].
  change (truth s = false) in Ho. rewrite Ho. by apply IH.
Qed.

Lemma classify_tcp_all_world dead futs w1 w2 :
  (classify_tcp_all dead futs w1).1 = (classify_tcp_all dead futs w2).1.
Proof.
  revert dead. induction futs as [|[d futures] futs IH]; intros dead; [done|].
  cbn [classify_tcp_all classify_tcp]. unfold mbind, prog_bind, bind.
  destruct (gather futures) as [status|e]; [|done]. apply IH.
Qed.

Section MockedPhases.
Variable mock_dns : string → string → query_outcome.
Variable mock_tcp : string → Z → connect_outcome.

Hypothesis pair_alike :
  ∀ domain pair, pair ∈ DNS_SERVERS → mock_dns domain pair.1 = mock_dns domain pair.2.
Hypothesis address_alike :
  ∀ domain pair1 pair2 ip1 ip2 hosts1 hosts2 port,
    pair1 ∈ DNS_SERVERS → pair2 ∈ DNS_SERVERS →
    mock_dns domain pair1.1 = Response (ip1 :: hosts1) →
    mock_dns domain pair2.1 = Response (ip2 :: hosts2) →
    mock_tcp ip1 port = mock_tcp ip2 port.

Lemma dns_phase_alike rnd1 rnd2 domains :
  match gather (dns_check_futures rnd1 (λ _, stateless_dns mock_dns) domains),
        gather (dns_check_futures rnd2 (λ _, stateless_dns mock_dns) domains) with
  | Ok ips_all1, Ok ips_all2 =>
      Forall2 (items_alike mock_dns) (zip domains ips_all1) (zip domains ips_all2)
  | Raise _, Raise _ => True
  | _, _ => False
  end.
Proof.
  revert rnd1 rnd2. induction domains as [|domain domains IH]; intros rnd1 rnd2.
  - cbn. constructor.
  - unfold dns_check_futures. rewrite !imap_cons. cbn [gather].
    pose proof (dns_resolve_domain_alike mock_dns pair_alike
                  (rnd1 0%nat) (rnd2 0%nat) domain (TaskState 0 []) (TaskState 0 []))
      as Hhead.
    destruct (dns_resolve_domain (rnd1 0%nat) _ domain _).1 as [ips1|e1],
             (dns_resolve_domain (rnd2 0%nat) _ domain _).1 as [ips2|e2];
      cbn in Hhead; try done.
    specialize (IH (rnd1 ∘ S) (rnd2 ∘ S)). unfold dns_check_futures in IH.
    destruct (gather (imap _ domains)) as [a1|e1],
             (gather (imap _ domains)) as [a2|e2]; try done.
    cbn. constructor; [done | exact IH].
Qed.

Lemma dict_set_alike k ips1 ips2 d1 d2 :
  alike mock_dns k ips1 ips2 →
  Forall2 (items_alike mock_dns) d1 d2 →
  Forall2 (items_alike mock_dns) (dict_set k ips1 d1) (dict_set k ips2 d2).
Proof.
  intros Hk Hd. induction Hd as [|[k1 v1] [k2 v2] d1 d2 [Hkey Hv] Hd IH]; cbn.
  - constructor; [by split | constructor].
  - cbn in Hkey. subst k2. case_decide.
    + constructor; [done | exact Hd].
    + constructor; [done | exact IH].
Qed.

Lemma classify_dns_alike items1 items2 dead tcp1 tcp2 :
  Forall2 (items_alike mock_dns) items1 items2 →
  Forall2 (items_alike mock_dns) tcp1 tcp2 →
  (fold_left classify_dns items1 (dead, tcp1)).1
  = (fold_left classify_dns items2 (dead, tcp2)).1
  ∧ Forall2 (items_alike mock_dns) (fold_left classify_dns items1 (dead, tcp1)).2
                        (fold_left classify_dns items2 (dead, tcp2)).2.
Proof.
  intros Hitems. revert dead tcp1 tcp2.
  induction Hitems as [|[d1 ips1] [d2 ips2] items1 items2 [Hkey Hv] Hitems IH];
    intros dead tcp1 tcp2 Htcp; [done|].
  cbn in Hkey, Hv. subst d2. cbn [fold_left classify_dns].
  rewrite <- (alike_any _ _ _ _ Hv), <- (alike_all _ _ _ _ Hv).
  destruct (any ips1); cbn [negb]; [destruct (all ips1); cbn [negb]|].
  - by apply IH.
  - by apply IH, dict_set_alike.
  - by apply IH.
Qed.

Lemma port_futures_mocked base ip ports :
  port_futures (λ _, mock_tcp) base ip ports = map (λ port, on_connect (mock_tcp ip port)) ports.
Proof.
  unfold port_futures. revert base.
  induction ports as [|port ports IH]; intros base; [done|].
  rewrite imap_cons. cbn. f_equal. rewrite <- (IH (S base)).
  apply imap_ext. intros j x _. done.
Qed.

Lemma tcp_check_all_alike tcp1 tcp2 w1 w2 :
  Forall2 (items_alike mock_dns) tcp1 tcp2 →
  (tcp_check_all (λ _, mock_tcp) tcp1 w1).1
  = (tcp_check_all (λ _, mock_tcp) tcp2 w2).1.
Proof.
  intros Htcp. revert w1 w2.
  induction Htcp as [|[d1 ips1] [d2 ips2] tcp1 tcp2 [Hkey Hv] Htcp IH];
    intros w1 w2; [done|].
  cbn in Hkey, Hv. subst d2. cbn [tcp_check_all].
  unfold mbind, prog_bind, bind.
  destruct (any ips1) eqn:Hany.
  - destruct (next_filter_first ips1 Hany) as (ip1 & Hn1 & _).
    rewrite (alike_any _ _ _ _ Hv) in Hany.
    destruct (next_filter_first ips2 Hany) as (ip2 & Hn2 & _).
    assert (map (λ port, on_connect (mock_tcp ip1 port)) WEB_PORTS
            = map (λ port, on_connect (mock_tcp ip2 port)) WEB_PORTS) as Hmap.
    { apply map_ext. intros port.
      by rewrite (alike_next_filter mock_dns mock_tcp address_alike
                    _ _ _ _ _ port Hv Hn1 Hn2). }
    rewrite Hn1, Hn2, !tcp_checks_of_spec, !port_futures_mocked, Hmap.
    set (w1' := World _ _ _). set (w2' := World _ _ (connections w2 ++ _)).
    specialize (IH w1' w2').
    destruct (tcp_check_all _ tcp1 w1') as [[futs1|e1] w1''],
             (tcp_check_all _ tcp2 w2') as [[futs2|e2] w2''];
      cbn in IH; try done; by injection IH as ->.
  - rewrite (next_filter_none _ Hany).
    rewrite (alike_any _ _ _ _ Hv) in Hany. by rewrite (next_filter_none _ Hany).
Qed.

End MockedPhases.

(** C8, amended.  Two runs on the same lines and the same stateless mocked
    network give the same Dead Domain Set (or both raise), whatever their
    random draws, when the two servers of each pair answer alike and the
    TCP outcome of a port is the same on all the addresses that the
    servers return for one domain. *)
Theorem idempotence_on_alike_servers
    (mock_dns : string → string → query_outcome)
    (mock_tcp : string → Z → connect_outcome)
    (rnd1 rnd2 : nat → Random.source) (w : world) :
  (∀ domain pair, pair ∈ DNS_SERVERS →
     mock_dns domain pair.1 = mock_dns domain pair.2) →
  (∀ domain pair1 pair2 ip1 ip2 hosts1 hosts2 port,
     pair1 ∈ DNS_SERVERS → pair2 ∈ DNS_SERVERS →
     mock_dns domain pair1.1 = Response (ip1 :: hosts1) →
     mock_dns domain pair2.1 = Response (ip2 :: hosts2) →
     mock_tcp ip1 port = mock_tcp ip2 port) →
  dead_set (main_mocked rnd1 mock_dns mock_tcp w)
  = dead_set (main_mocked rnd2 mock_dns mock_tcp w).
Proof.
  intros pair_alike address_alike.
  unfold dead_set, main_mocked, main, run_until_complete, mbind, prog_bind, bind.
  set (domains := map rstrip (list_file w)).
  pose proof (dns_phase_alike mock_dns pair_alike rnd1 rnd2 domains) as Hdns.
  destruct (gather (dns_check_futures rnd1 _ domains)) as [ips_all1|e1],
           (gather (dns_check_futures rnd2 _ domains)) as [ips_all2|e2];
    try done.
  destruct (classify_dns_alike mock_dns _ _ ∅ [] [] Hdns) as [Hdead Htcp];
    [constructor|].
  destruct (fold_left classify_dns (zip domains ips_all1) (∅, [])) as [dead1 tcp1],
           (fold_left classify_dns (zip domains ips_all2) (∅, [])) as [dead2 tcp2].
  cbn [fst snd] in Hdead, Htcp. subst dead2.
  pose proof (tcp_check_all_alike mock_dns mock_tcp address_alike _ _ w w Htcp)
    as Hfuts.
  destruct (tcp_check_all _ tcp1 w) as [[futs1|e1] w1],
           (tcp_check_all _ tcp2 w) as [[futs2|e2] w2];
    cbn [fst] in Hfuts; try done.
  injection Hfuts as <-.
  destruct (gather (concat (map snd futs1))) as [l|e]; [|done].
  pose proof (classify_tcp_all_world dead1 futs1 w1 w2) as Hcl.
  destruct (classify_tcp_all dead1 futs1 w1) as [[dead1'|e1] w1'],
           (classify_tcp_all dead1 futs1 w2) as [[dead2'|e2] w2'];
    cbn [fst] in Hcl; try done.
  by injection Hcl as <-.
Qed.

(** C8, as stated, fails: one line, a mocked network on which only
    8.8.8.8 knows the domain and every port is open.  When the draws pick
    8.8.8.8 the domain is alive, when they pick 8.8.4.4 it is dead. *)
Lemma idempotence_counterexample :
  dead_set (main_mocked (λ _ _, 0%nat) one_server_dns open_tcp one_line)
  ≠ dead_set (main_mocked (λ _ _, 1%nat) one_server_dns open_tcp one_line).
Proof.
  intros H.
  apply (f_equal (λ o : option (gset string),
                    match o with
                    | Some s => bool_decide ("example.test" ∈ s)
                    | None => false
                    end)) in H.
  vm_compute in H. discriminate H.
Qed.

(** ** The semaphores *)

Lemma count_insert {A} (P : A → Prop) `{∀ x, Decision (P x)} (l : list A) i x y :
  l !! i = Some x →
  (length (filter P (<[i:=y]> l)) + (if decide (P x) then 1 else 0)
   = length (filter P l) + (if decide (P y) then 1 else 0))%nat.
Proof.
  intros Hi. pose proof (insert_Permutation l i x y Hi) as Hperm.
  apply (filter_Permutation P) in Hperm. apply Permutation_length in Hperm.
  rewrite !filter_cons in Hperm.
  destruct (decide (P x)), (decide (P y)); cbn in Hperm; lia.
Qed.

Lemma sem_value_insert sems s s' n :
  Semaphore.sem_value (<[s:=n]> sems) s' = if decide (s = s') then n else Semaphore.sem_value sems s'.
Proof.
  unfold Semaphore.sem_value. rewrite lookup_insert. by case_decide.
Qed.

Lemma fire_sem_inv ev st st' :
  Semaphore.fire ev st = Some st' → Semaphore.sem_inv st → Semaphore.sem_inv st'.
Proof.
  intros Hfire Hinv s'. specialize (Hinv s'). unfold Semaphore.holding in *.
  destruct ev as [i s|i|i]; cbn in Hfire.
  - destruct (Semaphore.tasks st !! i) as [[| |]|] eqn:Hi; try done.
    injection Hfire as <-. cbn [Semaphore.tasks Semaphore.sems].
    pose proof (count_insert (λ p, p = Semaphore.Holding s') _ i _ (Semaphore.Queried s) Hi) as Hc.
    rewrite sem_value_insert.
    rewrite !decide_False in Hc by done.
    case_decide; subst; lia.
  - destruct (Semaphore.tasks st !! i) as [[|s|]|] eqn:Hi; try done.
    destruct (Semaphore.sem_value (Semaphore.sems st) s) as [|n] eqn:Hsem; [done|].
    injection Hfire as <-. cbn [Semaphore.tasks Semaphore.sems].
    pose proof (count_insert (λ p, p = Semaphore.Holding s') _ i _ (Semaphore.Holding s) Hi) as Hc.
    rewrite sem_value_insert.
    rewrite (decide_False (P := Semaphore.Queried s = Semaphore.Holding s')) in Hc by done.
    destruct (decide (s = s')) as [->|Hne].
    + rewrite decide_True in Hc by done. lia.
    + rewrite decide_False in Hc by congruence. lia.
  - destruct (Semaphore.tasks st !! i) as [[| |s]|] eqn:Hi; try done.
    injection Hfire as <-. cbn [Semaphore.tasks Semaphore.sems].
    pose proof (count_insert (λ p, p = Semaphore.Holding s') _ i _ Semaphore.Idle Hi) as Hc.
    rewrite sem_value_insert.
    rewrite (decide_False (P := Semaphore.Idle = Semaphore.Holding s')) in Hc by done.
    destruct (decide (s = s')) as [->|Hne].
    + rewrite decide_True in Hc by done. lia.
    + rewrite decide_False in Hc by congruence. lia.
Qed.

Lemma run_sem_inv evs st st' :
  Semaphore.run evs st = Some st' → Semaphore.sem_inv st → Semaphore.sem_inv st'.
Proof.
  revert st. induction evs as [|ev evs IH]; intros st; cbn.
  - by intros [= ->].
  - destruct (Semaphore.fire ev st) as [st1|] eqn:Hfire; [|done].
    intros Hrun Hinv. eapply IH; [done|]. by eapply fire_sem_inv.
Qed.

Lemma init_sem_inv n : Semaphore.sem_inv (Semaphore.init n).
Proof.
  intros s. unfold Semaphore.holding, Semaphore.init. cbn [Semaphore.tasks Semaphore.sems].
  unfold Semaphore.sem_value. rewrite lookup_empty. cbn [default].
  replace (filter _ _) with (@nil Semaphore.pc); [done|].
  induction n as [|n IH]; [done|]. cbn [replicate].
  by rewrite filter_cons, decide_False.
Qed.

(** At most the configured number of tasks are inside the semaphore of a
    server. *)
Lemma holding_bounded n st s :
  Semaphore.reachable n st →
  (Semaphore.holding st s ≤ MAX_CONCURRENT_REQUESTS_PER_DNS_SERVER)%nat.
Proof.
  intros [evs Hrun].
  pose proof (run_sem_inv _ _ _ Hrun (init_sem_inv n) s). lia.
Qed.

(** C6.  The semaphore does not bound the queries in flight: with eleven
    domains whose first query goes to 8.8.8.8, a state is reached in which
    ten calls are inside the semaphore and eleven queries are in flight to
    that server, one more than the limit. *)
Theorem semaphore_overrun :
  ∃ st, Semaphore.reachable 11 st
        ∧ Semaphore.holding st "8.8.8.8" = MAX_CONCURRENT_REQUESTS_PER_DNS_SERVER
        ∧ (MAX_CONCURRENT_REQUESTS_PER_DNS_SERVER < Semaphore.in_flight st "8.8.8.8")%nat.
Proof.
  eexists. split_and!.
  - exists Semaphore.eleven_queries. vm_compute. reflexivity.
  - vm_compute. reflexivity.
  - apply Nat.ltb_lt. vm_compute. reflexivity.
Qed.

(** ** The theorems at work on the example runs *)

Lemma NoDup_one_line (l : list string) d : NoDup l → on_one_line l d.
Proof. intros Hnd i j Hi Hj. by eapply NoDup_lookup. Qed.

Lemma scenario_ends_well :
  scenario_run = (Ok (report_of scenario_run), scenario_run.2).
Proof. vm_compute. reflexivity. Qed.

Lemma scenario_domains :
  domains (report_of scenario_run) = ["a.test"; "b.test"; "c.test"].
Proof. vm_compute. reflexivity. Qed.

Lemma scenario_vectors :
  dns_results (report_of scenario_run)
  = [ replicate 5 (Some "192.0.2.1");
      replicate 5 None;
      [None; None; None; Some "203.0.113.5"; Some "203.0.113.5"] ].
Proof. vm_compute. reflexivity. Qed.

Lemma scenario_NoDup : NoDup (domains (report_of scenario_run)).
Proof.
  rewrite scenario_domains. apply (bool_decide_unpack _). vm_compute. exact I.
Qed.

Lemma phase1_classification_witness :
  scenario_run = (Ok (report_of scenario_run), scenario_run.2)
  ∧ domains (report_of scenario_run) = ["a.test"; "b.test"; "c.test"]
  ∧ ("a.test" ∉ dead_domains (report_of scenario_run))
  ∧ "b.test" ∈ dead_domains (report_of scenario_run)
  ∧ ("b.test" ∉ (tcp_check_domain_ips (report_of scenario_run)).*1)
  ∧ "c.test" ∈ (tcp_check_domain_ips (report_of scenario_run)).*1.
Proof.
  pose proof scenario_ends_well as Hrun. pose proof scenario_domains as Hdom.
  pose proof scenario_vectors as Hvec.
  pose proof (λ d, NoDup_one_line _ d scenario_NoDup) as Hone.
  destruct (phase1_classification scenario_rnd scenario_dns scenario_tcp
              scenario_file _ _ 0%nat "a.test" Hrun) as (ipsa & Ha & _ & Hres & _);
    [by rewrite Hdom | apply Hone |].
  destruct (phase1_classification scenario_rnd scenario_dns scenario_tcp
              scenario_file _ _ 1%nat "b.test" Hrun) as (ipsb & Hb & Hun & _);
    [by rewrite Hdom | apply Hone |].
  destruct (phase1_classification scenario_rnd scenario_dns scenario_tcp
              scenario_file _ _ 2%nat "c.test" Hrun) as (ipsc & Hc & _ & _ & Hmix & _);
    [by rewrite Hdom | apply Hone |].
  rewrite Hvec in Ha, Hb, Hc.
  injection Ha as <-. injection Hb as <-. injection Hc as <-.
  assert (Forall resolved (replicate 5 (Some "192.0.2.1"))) as Hall
    by (by repeat constructor).
  assert (Forall unresolved (replicate 5 (@None string))) as Hnone
    by (by repeat constructor).
  destruct (Hres Hall) as (Halive & _).
  destruct (Hun Hnone) as (_ & Hdead & Hnot & _).
  split; [exact Hrun|]. split; [exact Hdom|]. split; [exact Halive|].
  split; [exact Hdead|]. split; [exact Hnot|].
  apply (proj2 Hmix). split.
  - do 3 apply Exists_cons_tl. by apply Exists_cons_hd.
  - by apply Exists_cons_hd.
Defined.

Lemma scenario_candidates :
  tcp_check_domain_ips (report_of scenario_run)
  = [("c.test", [None; None; None; Some "203.0.113.5"; Some "203.0.113.5"])].
Proof. vm_compute. reflexivity. Qed.

Lemma scenario_futures :
  tcp_check_futures (report_of scenario_run) = [("c.test", [Ok false; Ok true])].
Proof. vm_compute. reflexivity. Qed.

Lemma phase2_classification_witness :
  scenario_run = (Ok (report_of scenario_run), scenario_run.2)
  ∧ tcp_check_domain_ips (report_of scenario_run) !! 0%nat
    = Some ("c.test", [None; None; None; Some "203.0.113.5"; Some "203.0.113.5"])
  ∧ on_one_line (domains (report_of scenario_run)) "c.test"
  ∧ (∃ ip, first_resolved [None; None; None; Some "203.0.113.5"; Some "203.0.113.5"] ip
           ∧ connections scenario_run.2 !! 0%nat = Some (ip, 80)
           ∧ connections scenario_run.2 !! 1%nat = Some (ip, 443))
  ∧ length (connections scenario_run.2) = 2%nat
  ∧ ("c.test" ∉ dead_domains (report_of scenario_run)).
Proof.
  pose proof scenario_ends_well as Hrun.
  pose proof (NoDup_one_line _ "c.test" scenario_NoDup) as Hone.
  assert (tcp_check_domain_ips (report_of scenario_run) !! 0%nat
          = Some ("c.test", [None; None; None; Some "203.0.113.5"; Some "203.0.113.5"]))
    as Hcand by (by rewrite scenario_candidates).
  destruct (phase2_classification scenario_rnd scenario_dns scenario_tcp
              scenario_file _ _ 0%nat "c.test" _ Hrun Hcand Hone)
    as (ip & futures & Hfirst & Hfut & _ & Hports & Hconns & Hdead).
  rewrite scenario_futures in Hfut. injection Hfut as <-.
  rewrite scenario_candidates in Hconns.
  destruct (Hports 0%nat 80 eq_refl) as [H80 _].
  destruct (Hports 1%nat 443 eq_refl) as [H443 _].
  split; [exact Hrun|]. split; [exact Hcand|]. split; [exact Hone|].
  split; [exists ip; split; [exact Hfirst|]; split; [exact H80 | exact H443]|].
  split; [exact Hconns|].
  intros Hin. apply (proj1 Hdead) in Hin. apply Hin.
  apply list_elem_of_further, list_elem_of_here.
Defined.

Lemma relisted_ends_well :
  relisted_run = (Ok (report_of relisted_run), relisted_run.2).
Proof. vm_compute. reflexivity. Qed.

(** C1, as stated for every domain, fails for a domain on two lines.  In
    [relisted_run] the vector of the first line of d.test has no resolved
    entry, yet d.test is a TCP-check candidate and its two ports are
    probed.  In [lapsed_run] every entry of the vector of its first line
    is resolved, yet d.test is dead and is not written back. *)
Lemma phase1_counterexample :
  (relisted_run = (Ok (report_of relisted_run), relisted_run.2)
   ∧ domains (report_of relisted_run) !! 0%nat = Some "d.test"
   ∧ dns_results (report_of relisted_run) !! 0%nat = Some (replicate 5 None)
   ∧ "d.test" ∈ (tcp_check_domain_ips (report_of relisted_run)).*1
   ∧ connections relisted_run.2 = [("192.0.2.1", 80); ("192.0.2.1", 443)])
  ∧ (lapsed_run = (Ok (report_of lapsed_run), lapsed_run.2)
     ∧ domains (report_of lapsed_run) !! 0%nat = Some "d.test"
     ∧ dns_results (report_of lapsed_run) !! 0%nat
       = Some (replicate 5 (Some "192.0.2.1"))
     ∧ "d.test" ∈ dead_domains (report_of lapsed_run)
     ∧ list_file lapsed_run.2 = []).
Proof.
  split.
  - split; [exact relisted_ends_well|]. split; [vm_compute; reflexivity|].
    split; [vm_compute; reflexivity|]. split; [|vm_compute; reflexivity].
    apply (bool_decide_unpack _). vm_compute. exact I.
  - split; [vm_compute; reflexivity|]. split; [vm_compute; reflexivity|].
    split; [vm_compute; reflexivity|]. split; [|vm_compute; reflexivity].
    apply (bool_decide_unpack _). vm_compute. exact I.
Qed.

(** C2, as stated for every candidate, fails for a domain on two lines.
    In [relisted_run] d.test is a candidate by its second line and both
    its ports are open, yet it is in the Dead Domain Set, where its first
    line put it, and neither line is written back. *)
Lemma phase2_counterexample :
  relisted_run = (Ok (report_of relisted_run), relisted_run.2)
  ∧ tcp_check_domain_ips (report_of relisted_run) !! 0%nat
    = Some ("d.test", [None; None; None; None; Some "192.0.2.1"])
  ∧ tcp_check_futures (report_of relisted_run) !! 0%nat
    = Some ("d.test", [Ok true; Ok true])
  ∧ "d.test" ∈ dead_domains (report_of relisted_run)
  ∧ list_file relisted_run.2 = [].
Proof.
  split; [exact relisted_ends_well|]. split; [vm_compute; reflexivity|].
  split; [vm_compute; reflexivity|]. split; [|vm_compute; reflexivity].
  apply (bool_decide_unpack _). vm_compute. exact I.
Qed.

Lemma ENETUNREACH_fatal : ¬ benign (OSError (Some ENETUNREACH)).
Proof. intros [H|[H|H]]; discriminate H. Qed.

Lemma fatal_first_connection :
  connections fatal_run.2 !! 0%nat = Some ("203.0.113.5", 80).
Proof. vm_compute. reflexivity. Qed.

Lemma tcp_error_policy_witness :
  (has_tcp_port_open scenario_tcp "203.0.113.5" 80 scenario_file).1 = Ok false
  ∧ (has_tcp_port_open fatal_tcp "203.0.113.5" 80 scenario_file).1
    = Raise (OSError (Some ENETUNREACH))
  ∧ ∃ e', fatal_run.1 = Raise e'.
Proof.
  destruct (tcp_error_policy scenario_rnd scenario_dns scenario_tcp) as [Hfun _].
  destruct (tcp_error_policy scenario_rnd scenario_dns fatal_tcp) as [Hfun' Hrun].
  destruct (Hfun "203.0.113.5" 80 scenario_file) as [Hfalse _].
  destruct (Hfun' "203.0.113.5" 80 scenario_file) as [_ Hraise].
  split; [|split].
  - apply (proj2 Hfalse). exists ConnectionRefusedError.
    split; [reflexivity | by left].
  - apply Hraise; [reflexivity | exact ENETUNREACH_fatal].
  - destruct (Hrun scenario_file fatal_run.1 fatal_run.2 0%nat "203.0.113.5" 80
                (OSError (Some ENETUNREACH))) as [e' He'].
    + unfold fatal_run. by destruct (main _ _ _ _).
    + cbn. lia.
    + exact fatal_first_connection.
    + reflexivity.
    + exact ENETUNREACH_fatal.
    + by exists e'.
Defined.

Lemma fail_fast_witness :
  main scenario_rnd scenario_dns fatal_tcp scenario_file = (fatal_run.1, fatal_run.2)
  ∧ connections fatal_run.2 !! 0%nat = Some ("203.0.113.5", 80)
  ∧ fatal_tcp 0 "203.0.113.5" 80 = ConnectRaises (OSError (Some ENETUNREACH))
  ∧ ¬ benign (OSError (Some ENETUNREACH))
  ∧ (∃ e', fatal_run.1 = Raise e')
  ∧ list_file fatal_run.2 = list_file scenario_file
  ∧ stdout fatal_run.2 = stdout scenario_file.
Proof.
  assert (main scenario_rnd scenario_dns fatal_tcp scenario_file
          = (fatal_run.1, fatal_run.2)) as Hrun.
  { unfold fatal_run. by destruct (main _ _ _ _). }
  destruct (fail_fast scenario_rnd scenario_dns fatal_tcp scenario_file _ _ Hrun)
    as (Hfatal & _ & _).
  destruct (Hfatal 0%nat "203.0.113.5" 80 (OSError (Some ENETUNREACH)))
    as (Hraise & Hfile & Hout).
  - cbn. lia.
  - exact fatal_first_connection.
  - reflexivity.
  - exact ENETUNREACH_fatal.
  - split; [exact Hrun|]. split; [exact fatal_first_connection|].
    split; [reflexivity|]. split; [exact ENETUNREACH_fatal|].
    split; [exact Hraise|]. split; [exact Hfile | exact Hout].
Defined.

Lemma dns_resolve_contract_witness :
  (∃ st', dns_resolve (scenario_rnd 0%nat) always_timeout "a.test" "8.8.8.8"
            (TaskState 0 []) = (Ok None, st')
          ∧ issued "a.test" "8.8.8.8" MAX_DNS_ATTEMPTS (TaskState 0 []) st')
  ∧ (∃ st', dns_resolve (scenario_rnd 0%nat) error_at_third "a.test" "8.8.8.8"
              (TaskState 0 []) = (Ok None, st')
            ∧ issued "a.test" "8.8.8.8" 3 (TaskState 0 []) st')
  ∧ (∃ st', dns_resolve (scenario_rnd 0%nat) answer_at_second "a.test" "8.8.8.8"
              (TaskState 0 []) = (Ok (Some "192.0.2.1"), st')
            ∧ issued "a.test" "8.8.8.8" 2 (TaskState 0 []) st').
Proof.
  split; [|split].
  - apply (proj1 (dns_resolve_contract (scenario_rnd 0%nat) always_timeout
                    "a.test" "8.8.8.8" (TaskState 0 []))).
    intros a t Ha. reflexivity.
  - apply (proj1 (proj2 (dns_resolve_contract (scenario_rnd 0%nat) error_at_third
                           "a.test" "8.8.8.8" (TaskState 0 []))) 3%nat).
    + unfold MAX_DNS_ATTEMPTS. lia.
    + intros a t Ha. unfold error_at_third. cbn [q_attempt].
      destruct (Nat.ltb_spec a 3); [reflexivity | lia].
    + intros t. reflexivity.
  - apply (proj2 (proj2 (dns_resolve_contract (scenario_rnd 0%nat) answer_at_second
                           "a.test" "8.8.8.8" (TaskState 0 []))) 2%nat
             ["192.0.2.1"; "192.0.2.2"]).
    + unfold MAX_DNS_ATTEMPTS. lia.
    + intros a t Ha. unfold answer_at_second. cbn [q_attempt].
      destruct (Nat.ltb_spec a 2); [reflexivity | lia].
    + intros t. reflexivity.
Defined.

Lemma classification_exhaustive_witness :
  scenario_run = (Ok (report_of scenario_run), scenario_run.2)
  ∧ NoDup (domains (report_of scenario_run))
  ∧ dead_dns (report_of scenario_run) ∪ dead_via_tcp (report_of scenario_run)
      ∪ alive (report_of scenario_run)
    = list_to_set (domains (report_of scenario_run))
  ∧ dead_dns (report_of scenario_run) ## dead_via_tcp (report_of scenario_run)
  ∧ dead_dns (report_of scenario_run) ## alive (report_of scenario_run)
  ∧ dead_via_tcp (report_of scenario_run) ## alive (report_of scenario_run)
  ∧ dead_domains (report_of scenario_run)
    = dead_dns (report_of scenario_run) ∪ dead_via_tcp (report_of scenario_run).
Proof.
  split; [exact scenario_ends_well|]. split; [exact scenario_NoDup|].
  exact (classification_exhaustive scenario_rnd scenario_dns scenario_tcp
           scenario_file _ _ scenario_ends_well scenario_NoDup).
Defined.

Lemma duplicate_ends_well :
  duplicate_run = (Ok (report_of duplicate_run), duplicate_run.2).
Proof. vm_compute. reflexivity. Qed.

Lemma duplicate_counts :
  size (dead_domains (report_of duplicate_run)) = 1%nat
  ∧ length (filter (λ domain, domain ∈ dead_domains (report_of duplicate_run))
              (domains (report_of duplicate_run))) = 2%nat
  ∧ list_file duplicate_run.2 = ["a.test" +:+ LF].
Proof. split; [|split]; vm_compute; reflexivity. Qed.

Lemma duplicate_lines_witness :
  duplicate_run = (Ok (report_of duplicate_run), duplicate_run.2)
  ∧ "b.test" ∈ dead_domains (report_of duplicate_run)
  ∧ ("b.test" +:+ LF ∉ list_file duplicate_run.2)
  ∧ last (stdout duplicate_run.2) = Some (LF +:+ "1 dead domain(s) removed")
  ∧ (length (list_file duplicate_run.2) + 2 = length (domains (report_of duplicate_run)))%nat.
Proof.
  pose proof duplicate_ends_well as Hrun.
  destruct duplicate_counts as (Hsize & Hlines & Hfile).
  destruct (duplicate_lines scenario_rnd duplicate_dns scenario_tcp duplicate_file
              _ _ Hrun) as (Hgone & Hremoved & Hprint & _ & _).
  assert ("b.test" ∈ dead_domains (report_of duplicate_run)) as Hdead.
  { apply (bool_decide_unpack _). vm_compute. exact I. }
  split; [exact Hrun|]. split; [exact Hdead|].
  split; [exact (Hgone _ Hdead)|].
  split.
  - rewrite Hprint, Hsize. reflexivity.
  - rewrite <- Hremoved, Hlines. reflexivity.
Defined.

Lemma google_pairs_alike domain pair :
  pair ∈ DNS_SERVERS → google_dns domain pair.1 = google_dns domain pair.2.
Proof.
  unfold DNS_SERVERS. intros Hin.
  repeat (apply elem_of_cons in Hin as [->|Hin]; [reflexivity|]).
  by apply not_elem_of_nil in Hin.
Qed.

Lemma google_addresses_alike domain (pair1 pair2 : string * string)
    ip1 ip2 hosts1 hosts2 port :
  pair1 ∈ DNS_SERVERS → pair2 ∈ DNS_SERVERS →
  google_dns domain pair1.1 = Response (ip1 :: hosts1) →
  google_dns domain pair2.1 = Response (ip2 :: hosts2) →
  scenario_tcp 0 ip1 port = scenario_tcp 0 ip2 port.
Proof.
  intros _ _ H1 H2. unfold google_dns in H1, H2.
  destruct (_ || _) in H1; [|discriminate H1].
  destruct (_ || _) in H2; [|discriminate H2].
  congruence.
Qed.

Lemma idempotence_on_alike_servers_witness :
  (∀ domain pair, pair ∈ DNS_SERVERS →
     google_dns domain pair.1 = google_dns domain pair.2)
  ∧ (∀ domain pair1 pair2 ip1 ip2 hosts1 hosts2 port,
       pair1 ∈ DNS_SERVERS → pair2 ∈ DNS_SERVERS →
       google_dns domain pair1.1 = Response (ip1 :: hosts1) →
       google_dns domain pair2.1 = Response (ip2 :: hosts2) →
       scenario_tcp 0 ip1 port = scenario_tcp 0 ip2 port)
  ∧ dead_set (main_mocked (λ _ _, 0%nat) google_dns (scenario_tcp 0) one_line)
    = dead_set (main_mocked (λ _ _, 1%nat) google_dns (scenario_tcp 0) one_line).
Proof.
  split; [exact google_pairs_alike|]. split; [exact google_addresses_alike|].
  exact (idempotence_on_alike_servers google_dns (scenario_tcp 0)
           (λ _ _, 0%nat) (λ _ _, 1%nat) one_line
           google_pairs_alike google_addresses_alike).
Defined.

(** * More of the code *)

(** ** More on [dns_resolve] *)

Lemma randint_jitter src pos :
  (-20 ≤ (Random.randint src (-20) 20 pos).1 ≤ 20)%Z.
Proof.
  unfold Random.randint, Random.randbelow. cbn [fst].
  change (Z.to_nat (20 - -20 + 1)) with 41%nat.
  pose proof (Nat.mod_upper_bound (src pos) 41). lia.
Qed.

Section DnsResolveLog.
Variable src : Random.source.
Variable dns : query → query_outcome.

(** The queries of the loop, whatever the server does: one per attempt
    made, in order; the first with the timeout given, the others with a
    jittered one. *)
Lemma dns_resolve_loop_log domain dns_server attempts timeout st :
  ∃ n qs,
    sent (dns_resolve_loop src dns domain dns_server attempts timeout st).2
    = sent st ++ qs
    ∧ map q_attempt qs = take n attempts
    ∧ (attempts ≠ [] → qs ≠ [])
    ∧ sent_to domain dns_server qs
    ∧ (head qs = None ∨ q_timeout <$> head qs = Some timeout)
    ∧ Forall (λ q, jittered (q_timeout q)) (tail qs).
Proof.
  revert timeout st. induction attempts as [|attempt rest IH]; intros timeout st.
  - exists 0%nat, []. cbn. rewrite app_nil_r. split_and!.
    + done.
    + done.
    + done.
    + constructor.
    + by left.
    + constructor.
  - cbn [dns_resolve_loop]. unfold mbind, prog_bind, bind, send. cbn [fst snd].
    set (q0 := Query domain dns_server attempt timeout).
    set (st0 := TaskState (rng_pos st) (sent st ++ [q0])).
    assert (∀ r, ∃ n qs,
              sent (@pair (result (option string)) _ r st0).2 = sent st ++ qs
              ∧ map q_attempt qs = take n (attempt :: rest)
              ∧ (attempt :: rest ≠ [] → qs ≠ [])
              ∧ sent_to domain dns_server qs
              ∧ (head qs = None ∨ q_timeout <$> head qs = Some timeout)
              ∧ Forall (λ q, jittered (q_timeout q)) (tail qs)) as Hstop.
    { intros r. exists 1%nat, [q0]. cbn [snd sent st0 take map q_attempt q0 head tail].
      rewrite take_0. split_and!.
      - done.
      - done.
      - done.
      - constructor; [done | constructor].
      - by right.
      - constructor. }
    destruct (dns q0) as [[|host hosts]|e]; try apply Hstop.
    destruct e; try apply Hstop.
    (* a timeout: the jitter is drawn and the loop goes on *)
    unfold draw. cbn [rng_pos sent st0].
    pose proof (randint_jitter src (rng_pos st)) as Hj.
    destruct (Random.randint src (-20) 20 (rng_pos st)) as [jitter pos'].
    cbn [fst] in Hj.
    destruct (IH (BASE_DNS_TIMEOUT_S * 100 + jitter) (TaskState pos' (sent st ++ [q0])))
      as (n & qs & Hsent & Hatt & _ & Hto & Hhead & Htail).
    exists (S n), (q0 :: qs). cbn [sent] in Hsent.
    split_and!.
    + rewrite Hsent, <- app_assoc. done.
    + cbn. by rewrite Hatt.
    + done.
    + constructor; [done | exact Hto].
    + by right.
    + cbn [tail]. destruct qs as [|q1 qs]; [constructor|].
      cbn [tail] in Htail. constructor; [|exact Htail].
      destruct Hhead as [Hhead|Hhead]; [done|]. injection Hhead as ->.
      unfold jittered. lia.
Qed.

(** X1.  Whatever the server does, one call of [dns_resolve] sends at
    least one query and at most [MAX_DNS_ATTEMPTS], all for its domain and
    to its server, and numbers them 1, 2, 3 and so on without a gap. *)
Theorem dns_resolve_attempts domain dns_server st :
  ∃ qs,
    sent (dns_resolve src dns domain dns_server st).2 = sent st ++ qs
    ∧ (1 ≤ length qs ≤ MAX_DNS_ATTEMPTS)%nat
    ∧ sent_to domain dns_server qs
    ∧ map q_attempt qs = seq 1 (length qs).
Proof.
  destruct (dns_resolve_loop_log domain dns_server (seq 1 MAX_DNS_ATTEMPTS)
              (BASE_DNS_TIMEOUT_S * 100) st)
    as (n & qs & Hsent & Hatt & Hne & Hto & _).
  exists qs. fold (dns_resolve src dns domain dns_server) in Hsent.
  assert (length qs = (n `min` MAX_DNS_ATTEMPTS)%nat) as Hlen.
  { rewrite <- (length_map q_attempt), Hatt, length_take, length_seq. done. }
  split_and!; [done | | lia | done |].
  - destruct qs; [by destruct Hne | cbn; lia].
  - rewrite Hatt, Hlen, take_seq. done.
Qed.

(** X2.  The first query of [dns_resolve] waits for the base timeout;
    every later one waits for the base timeout with a jitter of at most
    twenty hundredths of a second either way (timeouts in hundredths of a
    second). *)
Theorem dns_resolve_timeouts domain dns_server st :
  ∃ q0 qs,
    sent (dns_resolve src dns domain dns_server st).2 = sent st ++ q0 :: qs
    ∧ q_timeout q0 = BASE_DNS_TIMEOUT_S * 100
    ∧ Forall (λ q, jittered (q_timeout q)) qs.
Proof.
  destruct (dns_resolve_loop_log domain dns_server (seq 1 MAX_DNS_ATTEMPTS)
              (BASE_DNS_TIMEOUT_S * 100) st)
    as (n & qs & Hsent & _ & Hne & _ & Hhead & Htail).
  fold (dns_resolve src dns domain dns_server) in Hsent.
  destruct qs as [|q0 qs]; [by destruct Hne|].
  exists q0, qs. split_and!; [done | | exact Htail].
  destruct Hhead as [Hhead|Hhead]; [done | by injection Hhead].
Qed.

End DnsResolveLog.

Section DnsResolveMore.
Variable src : Random.source.
Variable dns : query → query_outcome.

(** X3.  An error of a query that is neither a timeout nor a DNS error
    is not caught by [dns_resolve]: when the attempts before the [k]-th
    time out and the [k]-th raises such an error, the call raises it after
    exactly [k] queries. *)
Theorem dns_resolve_raises domain dns_server st k e :
  (1 ≤ k ≤ MAX_DNS_ATTEMPTS)%nat →
  times_out_before dns domain dns_server k →
  (∀ t, dns (Query domain dns_server k t) = QueryRaises e) →
  e ≠ TimeoutError → e ≠ DNSError →
  ∃ st', dns_resolve src dns domain dns_server st = (Raise e, st')
         ∧ issued domain dns_server k st st'.
Proof.
  intros Hk Hbefore He Hto Herr.
  apply (dns_resolve_settles src dns _ _ _ k); try done.
  intros rest t st0. cbn. unfold mbind, prog_bind, bind, send. cbn.
  rewrite He. by destruct e.
Qed.

Lemma dns_resolve_sent domain dns_server st :
  ∃ qs, sent (dns_resolve src dns domain dns_server st).2 = sent st ++ qs
        ∧ resolution_of domain dns_server qs.
Proof.
  destruct (dns_resolve_loop_log src dns domain dns_server (seq 1 MAX_DNS_ATTEMPTS)
              (BASE_DNS_TIMEOUT_S * 100) st)
    as (n & qs & Hsent & Hatt & Hne & Hto & _).
  exists qs. split; [exact Hsent|]. split; [|exact Hto].
  assert (length qs = (n `min` MAX_DNS_ATTEMPTS)%nat) as Hlen.
  { rewrite <- (length_map q_attempt), Hatt, length_take, length_seq. done. }
  split; [|lia]. destruct qs; [by destruct Hne | cbn; lia].
Qed.

Lemma dns_resolve_servers_log domain dns_servers r st ips st' :
  dns_resolve_servers src dns domain dns_servers r st = (Ok ips, st') →
  ∃ chosen groups,
    Forall2 one_of dns_servers chosen
    ∧ Forall2 (resolution_of domain) chosen groups
    ∧ sent st' = sent st ++ concat groups.
Proof.
  revert r st. induction dns_servers as [|pair dns_servers IH]; intros r st.
  - intros [= <- <-]. exists [], []. cbn. rewrite app_nil_r.
    split_and!; [constructor | constructor | done].
  - cbn [dns_resolve_servers]. unfold mbind, prog_bind, bind, draw,
      Random.choice, Random.randbelow.
    set (dns_server_ip := match _ with O => pair.1 | _ => pair.2 end).
    assert (one_of pair dns_server_ip) as Hone.
    { subst dns_server_ip. destruct (_ `mod` _)%nat; [by left | by right]. }
    destruct (dns_resolve_sent domain dns_server_ip
                (TaskState (S (rng_pos st)) (sent st))) as (qs & Hsent & Hqs).
    destruct (dns_resolve src dns domain dns_server_ip _) as [[ip|e] st1]; [|done].
    cbn [snd sent] in Hsent.
    intros (chosen & groups & Hchosen & Hgroups & Hrest)%IH.
    exists (dns_server_ip :: chosen), (qs :: groups). split_and!.
    + by constructor.
    + by constructor.
    + rewrite Hrest, Hsent. cbn. by rewrite <- app_assoc.
Qed.

(** X4.  A call of [dns_resolve_domain] that returns has visited the
    server pairs in some order, each pair once; it has chosen one address
    of each pair and has sent to it, before going to the next pair, the
    queries of one call of [dns_resolve]; nothing else was sent, and the
    vector has one entry per pair. *)
Theorem dns_resolve_domain_queries domain st ips st' :
  dns_resolve_domain src dns domain st = (Ok ips, st') →
  ∃ dns_servers chosen groups,
    dns_servers ≡ₚ DNS_SERVERS
    ∧ Forall2 one_of dns_servers chosen
    ∧ Forall2 (resolution_of domain) chosen groups
    ∧ sent st' = sent st ++ concat groups
    ∧ length ips = length DNS_SERVERS.
Proof.
  intros Hrun. pose proof (dns_resolve_domain_length src dns _ _ _ _ Hrun) as Hlen.
  revert Hrun. unfold dns_resolve_domain, mbind, prog_bind, bind, draw.
  pose proof (shuffle_Permutation src DNS_SERVERS (rng_pos st)) as Hperm.
  destruct (Random.shuffle src DNS_SERVERS (rng_pos st)) as [dns_servers pos'].
  cbn [fst] in Hperm.
  intros (chosen & groups & Hchosen & Hgroups & Hsent)%dns_resolve_servers_log.
  exists dns_servers, chosen, groups. done.
Qed.

End DnsResolveMore.

(** ** More on the script *)

Lemma mixed_any_all ips : mixed ips ↔ any ips = true ∧ all ips = false.
Proof. unfold mixed. by rewrite any_true, all_false. Qed.

Section ScriptMore.
Variable rnd : nat → Random.source.
Variable net_dns : nat → query → query_outcome.
Variable net_tcp : nat → string → Z → connect_outcome.

(** X5.  In a run that ends well the domains are the lines of the file
    without their trailing white space, there is one Domain Resolution
    Vector per line, and every vector has one entry per server pair. *)
Theorem vectors_complete w rep w' :
  main rnd net_dns net_tcp w = (Ok rep, w') →
  domains rep = map rstrip (list_file w)
  ∧ length (dns_results rep) = length (list_file w)
  ∧ Forall (λ ips : list (option string), length ips = length DNS_SERVERS)
           (dns_results rep).
Proof.
  intros Hrun%main_facts. destruct Hrun as [Hdom Hlen Hvec _ _ _ _ _ _ _].
  split; [done|]. split; [|done]. by rewrite Hlen, Hdom, length_map.
Qed.

(** X6.  When the call of [dns_resolve_domain] of some line raises, the
    run raises in phase 1: no connection is made, nothing is printed and
    the list file is as it was. *)
Theorem dns_failure_aborts w i domain e :
  map rstrip (list_file w) !! i = Some domain →
  (dns_resolve_domain (rnd i) (net_dns i) domain (TaskState 0 [])).1 = Raise e →
  ∃ e', main rnd net_dns net_tcp w = (Raise e', w).
Proof.
  intros Hi Hraise.
  assert (Raise e ∈ dns_check_futures rnd net_dns (map rstrip (list_file w))) as Hin.
  { apply list_elem_of_lookup. exists i. unfold dns_check_futures.
    rewrite list_lookup_imap, Hi. cbn. by rewrite <- Hraise. }
  apply gather_Raise in Hin as [e' He'].
  exists e'. unfold main, run_until_complete, mbind, prog_bind, bind.
  by rewrite He'.
Qed.

End ScriptMore.

Lemma dict_set_fresh {V} k (v : V) d : k ∉ d.*1 → dict_set k v d = d ++ [(k, v)].
Proof.
  induction d as [|[k0 v0] d IH]; cbn; [done|].
  intros [Hne Hnot]%not_elem_of_cons. rewrite decide_False by done.
  by rewrite IH.
Qed.

(** The loop of line 121 on distinct domains: the candidates are the
    mixed lines, in the order of the lines. *)
Lemma classify_dns_distinct items dead tcp :
  NoDup (tcp.*1 ++ items.*1) →
  fold_left classify_dns items (dead, tcp)
  = (list_to_set (filter (λ item, Forall unresolved item.2) items).*1 ∪ dead,
     tcp ++ filter (λ item, mixed item.2) items).
Proof.
  revert dead tcp. induction items as [|[d ips] items IH]; intros dead tcp Hnd.
  - cbn. rewrite app_nil_r. f_equal. by rewrite (left_id_L ∅ (∪)).
  - cbn [fold_left classify_dns]. cbn [fmap list_fmap fst] in Hnd.
    destruct (any ips) eqn:Hany; cbn [negb]; [destruct (all ips) eqn:Hall; cbn [negb]|].
    + rewrite IH.
      * rewrite !filter_cons. cbn [snd].
        rewrite decide_False by (rewrite <- any_false, Hany; done).
        rewrite decide_False by (rewrite mixed_any_all; intros [_ ?]; congruence).
        done.
      * apply NoDup_app in Hnd as (H1 & H2 & H3). apply NoDup_cons in H3 as [_ H3].
        apply NoDup_app. split_and!; [done | | done].
        intros x Hx Hin. apply (H2 x Hx). by apply list_elem_of_further.
    + assert (d ∉ tcp.*1) as Hfresh.
      { apply NoDup_app in Hnd as (_ & H2 & _). intros Hin.
        apply (H2 d Hin). apply list_elem_of_here. }
      rewrite dict_set_fresh by done. rewrite IH.
      * rewrite !filter_cons. cbn [snd].
        rewrite decide_False by (rewrite <- any_false, Hany; done).
        rewrite decide_True by (by apply mixed_any_all).
        by rewrite <- app_assoc.
      * rewrite fmap_app. cbn. rewrite <- app_assoc. cbn.
        apply NoDup_app in Hnd as (H1 & H2 & H3).
        apply NoDup_app. split_and!; [done | | done]. done.
    + rewrite IH.
      * rewrite !filter_cons. cbn [snd].
        rewrite decide_True by (by apply any_false).
        rewrite decide_False by (rewrite mixed_any_all; intros [? _]; congruence).
        f_equal. apply set_eq. intros x.
        rewrite !elem_of_union, !elem_of_list_to_set, fmap_cons, elem_of_cons,
          elem_of_singleton. cbn [fst]. tauto.
      * apply NoDup_app in Hnd as (H1 & H2 & H3). apply NoDup_cons in H3 as [_ H3].
        apply NoDup_app. split_and!; [done | | done].
        intros x Hx Hin. apply (H2 x Hx). by apply list_elem_of_further.
Qed.

Section ScriptOrder.
Variable rnd : nat → Random.source.
Variable net_dns : nat → query → query_outcome.
Variable net_tcp : nat → string → Z → connect_outcome.

(** X8.  When the lines are pairwise distinct, the TCP-check candidates
    are the lines with a mixed vector, in the order of the file and each
    with its vector, and the domains dead after phase 1 are the lines
    whose vector has no resolved entry. *)
Theorem candidates_in_line_order w rep w' :
  main rnd net_dns net_tcp w = (Ok rep, w') →
  NoDup (domains rep) →
  tcp_check_domain_ips rep
  = filter (λ item, mixed item.2) (zip (domains rep) (dns_results rep))
  ∧ dead_dns rep
    = list_to_set (filter (λ item, Forall unresolved item.2)
                     (zip (domains rep) (dns_results rep))).*1.
Proof.
  intros Hmain Hnd.
  pose proof (main_Ok _ _ _ _ _ _ Hmain) as (_ & _ & Hfold & _).
  apply main_facts in Hmain as Hrun.
  assert ((zip (domains rep) (dns_results rep)).*1 = domains rep) as Hkeys.
  { apply fst_zip. by rewrite (run_results_length _ _ _ _ Hrun). }
  rewrite classify_dns_distinct in Hfold by (cbn; by rewrite Hkeys).
  injection Hfold as Hdead Htcp. cbn in Htcp. split; [done|].
  rewrite <- Hdead. by rewrite (right_id_L ∅ (∪)).
Qed.

End ScriptOrder.

(** The vector that the loop of line 121 keeps for a domain is that of
    its last mixed line. *)
Lemma classify_dns_last items d :
  dict_get d (fold_left classify_dns items (∅, [])).2
  = last (filter (λ item, item.1 = d ∧ mixed item.2) items).*2.
Proof.
  induction items as [|[d0 ips0] items IH] using rev_ind; [done|].
  rewrite fold_left_app, filter_app, fmap_app. cbn [fold_left].
  destruct (fold_left classify_dns items (∅, [])) as [dead tcp]. cbn [snd] in IH.
  unfold classify_dns.
  rewrite filter_cons, filter_nil. cbn [fst snd].
  destruct (any ips0) eqn:Hany; cbn [negb]; [destruct (all ips0) eqn:Hall; cbn [negb]|];
    cbn [snd].
  - rewrite decide_False by (rewrite mixed_any_all; intros [_ [_ ?]]; congruence).
    cbn. by rewrite app_nil_r.
  - rewrite dict_get_set. destruct (decide (d0 = d)) as [->|Hne].
    + rewrite decide_True by (split; [done | by apply mixed_any_all]).
      cbn. by rewrite last_snoc.
    + rewrite decide_False by (by intros [? _]). cbn. by rewrite app_nil_r.
  - rewrite decide_False by (rewrite mixed_any_all; intros [_ [? _]]; congruence).
    cbn. by rewrite app_nil_r.
Qed.

Section ScriptDuplicates.
Variable rnd : nat → Random.source.
Variable net_dns : nat → query → query_outcome.
Variable net_tcp : nat → string → Z → connect_outcome.

(** X9.  The Dead Domain Set of a run that ends well, duplicates or
    not: a domain is in it exactly when one of its lines has a vector
    without a resolved entry, or it was probed and no probe found an open
    port. *)
Theorem dead_domains_characterised w rep w' d :
  main rnd net_dns net_tcp w = (Ok rep, w') →
  d ∈ dead_domains rep ↔
    (∃ i ips, domains rep !! i = Some d ∧ dns_results rep !! i = Some ips
              ∧ Forall unresolved ips)
    ∨ (∃ futures, (d, futures) ∈ tcp_check_futures rep ∧ Ok true ∉ futures).
Proof.
  intros Hrun%main_facts. rewrite (run_dead _ _ _ _ Hrun).
  rewrite (inv_dead _ _ _ (run_phase1 _ _ _ _ Hrun)).
  assert (∀ futures, (d, futures) ∈ tcp_check_futures rep →
            Forall (λ future, future = Ok false) futures ↔ Ok true ∉ futures) as Hfut.
  { intros futures [status ->]%(run_results _ _ _ _ Hrun).
    rewrite Forall_forall. split.
    - intros Hall Hin. by apply Hall in Hin.
    - intros Hnot future (b & -> & Hb)%list_elem_of_fmap.
      destruct b; [|done]. exfalso. apply Hnot. apply list_elem_of_fmap. eauto. }
  split.
  - intros [(ips & [i Hi]%list_elem_of_lookup & Ha)|(futures & Hin & Hall)].
    + left. apply zip_lookup_Some in Hi as [? ?]. exists i, ips.
      split_and!; [done | done | by apply any_false].
    + right. exists futures. split; [done | by apply Hfut].
  - intros [(i & ips & Hi & Hr & Hun)|(futures & Hin & Hnot)].
    + left. exists ips. split; [|by apply any_false].
      apply list_elem_of_lookup. exists i. by apply zip_lookup_Some.
    + right. exists futures. split; [done | by apply Hfut].
Qed.

(** X10.  For a domain on several lines, the vector kept for the TCP
    checks is that of its last line with a mixed vector: a later
    assignment to [tcp_check_domain_ips] overwrites the earlier one. *)
Theorem candidate_vector_is_last w rep w' d :
  main rnd net_dns net_tcp w = (Ok rep, w') →
  dict_get d (tcp_check_domain_ips rep)
  = last (filter (λ item, item.1 = d ∧ mixed item.2)
            (zip (domains rep) (dns_results rep))).*2.
Proof.
  intros Hmain. pose proof (main_Ok _ _ _ _ _ _ Hmain) as (_ & _ & Hfold & _).
  rewrite <- classify_dns_last. by rewrite Hfold.
Qed.

End ScriptDuplicates.

(** ** The file, written and read back *)

Lemma blank_app a u : blank a = true → blank u = true → blank (a +:+ u) = true.
Proof.
  intros Ha Hu. remember (String.length a) as n eqn:Hn. revert a Hn Ha.
  induction n as [n IH] using lt_wf_ind. intros a Hn Ha.
  destruct a as [|b1 a1]; [done|].
  change (String b1 a1 +:+ u) with (String b1 (a1 +:+ u)).
  cbn [blank String.length] in Ha, Hn |- *.
  destruct (space (code1 b1)).
  { apply (IH (String.length a1)); [lia | done | done]. }
  destruct a1 as [|b2 a2]; [done|].
  change (String b2 a2 +:+ u) with (String b2 (a2 +:+ u)). cbv beta iota in Ha |- *.
  cbn [String.length] in Hn.
  destruct (space (code2 b1 b2)).
  { apply (IH (String.length a2)); [lia | done | done]. }
  destruct a2 as [|b3 a3]; [done|].
  change (String b3 a3 +:+ u) with (String b3 (a3 +:+ u)). cbv beta iota in Ha |- *.
  cbn [String.length] in Hn.
  apply andb_true_iff in Ha as [-> Ha]. cbn [andb].
  apply (IH (String.length a3)); [lia | done | done].
Qed.

(** A line feed ends no character of several bytes. *)
Lemma code2_LF b1 : code2 b1 (Ascii.ascii_of_nat 10) = None.
Proof. unfold code2. by destruct (_ && _). Qed.

Lemma code3_LF b1 b2 : code3 b1 b2 (Ascii.ascii_of_nat 10) = None.
Proof. unfold code3. destruct (_ && _); [|done]. by destruct (continuation b2). Qed.

Lemma blank_LF s : blank (s +:+ LF) = blank s.
Proof.
  apply eq_true_iff_eq. split; [|by intros Hs; apply blank_app].
  remember (String.length s) as n eqn:Hn. revert s Hn.
  induction n as [n IH] using lt_wf_ind. intros s Hn Hs.
  destruct s as [|b1 s1]; [done|].
  change (String b1 s1 +:+ LF) with (String b1 (s1 +:+ LF)) in Hs.
  cbn [blank String.length] in Hs, Hn |- *.
  destruct (space (code1 b1)).
  { apply (IH (String.length s1)); [lia | done | done]. }
  destruct s1 as [|b2 s2].
  { change ("" +:+ LF) with (String (Ascii.ascii_of_nat 10) "") in Hs.
    cbv beta iota in Hs. by rewrite code2_LF in Hs. }
  change (String b2 s2 +:+ LF) with (String b2 (s2 +:+ LF)) in Hs. cbv beta iota in Hs |- *.
  cbn [String.length] in Hn.
  destruct (space (code2 b1 b2)).
  { apply (IH (String.length s2)); [lia | done | done]. }
  destruct s2 as [|b3 s3].
  { change ("" +:+ LF) with (String (Ascii.ascii_of_nat 10) "") in Hs.
    cbv beta iota in Hs. by rewrite code3_LF in Hs. }
  change (String b3 s3 +:+ LF) with (String b3 (s3 +:+ LF)) in Hs. cbv beta iota in Hs |- *.
  cbn [String.length] in Hn.
  apply andb_true_iff in Hs as [-> Hs]. cbn [andb].
  apply (IH (String.length s3)); [lia | done | done].
Qed.

(** What [rstrip] takes off is white space. *)
Lemma rstrip_split s : ∃ u, s = rstrip s +:+ u ∧ blank u = true.
Proof.
  induction s as [|c s (u & Hs & Hu)]; [by exists ""|].
  cbn [rstrip]. destruct (blank (String c s)) eqn:Hb.
  - by exists (String c s).
  - exists u. split; [|done].
    change (String c (rstrip s) +:+ u) with (String c (rstrip s +:+ u)).
    by rewrite <- Hs.
Qed.

Lemma rstrip_idemp s : rstrip (rstrip s) = rstrip s.
Proof.
  induction s as [|c s IH]; [done|]. cbn [rstrip].
  destruct (blank (String c s)) eqn:Hb; [done|].
  cbn [rstrip]. rewrite IH.
  destruct (blank (String c (rstrip s))) eqn:Hb'; [|done].
  destruct (rstrip_split s) as (u & Hs & Hu).
  pose proof (blank_app _ _ Hb' Hu) as Hall.
  change (String c (rstrip s) +:+ u) with (String c (rstrip s +:+ u)) in Hall.
  rewrite <- Hs in Hall. congruence.
Qed.

Lemma rstrip_LF s : rstrip (s +:+ LF) = rstrip s.
Proof.
  induction s as [|c s IH]; [done|].
  change (String c s +:+ LF) with (String c (s +:+ LF)).
  cbn [rstrip]. rewrite IH.
  change (String c (s +:+ LF)) with (String c s +:+ LF). by rewrite blank_LF.
Qed.

(** White space of Unicode at the end of a line is stripped like a space. *)
Lemma rstrip_unicode :
  rstrip ("a.test" +:+ NBSP +:+ " " +:+ IDEOGRAPHIC_SPACE +:+ LF) = "a.test".
Proof. vm_compute. reflexivity. Qed.

Lemma rstrip_written line : rstrip (rstrip line +:+ LF) = rstrip line.
Proof. by rewrite rstrip_LF, rstrip_idemp. Qed.

Section ScriptFile.
Variable rnd : nat → Random.source.
Variable net_dns : nat → query → query_outcome.
Variable net_tcp : nat → string → Z → connect_outcome.

(** X11.  The file written by a run that ends well is made of lines of
    the old file, in their order, each without its trailing white space
    and ended by one line feed; read again, it gives the domains that are
    not dead. *)
Theorem rewritten_file w rep w' :
  main rnd net_dns net_tcp w = (Ok rep, w') →
  list_file w' `sublist_of` map (λ line, rstrip line +:+ LF) (list_file w)
  ∧ map rstrip (list_file w')
    = filter (λ domain, domain ∉ dead_domains rep) (domains rep).
Proof.
  intros Hrun%main_facts.
  rewrite (run_file _ _ _ _ Hrun), (run_domains _ _ _ _ Hrun). split.
  - rewrite (list_fmap_compose rstrip (λ domain, domain +:+ LF)).
    apply fmap_sublist, sublist_filter.
  - rewrite <- list_fmap_compose.
    rewrite <- (list_fmap_id (filter _ _)) at 2.
    apply list_fmap_ext. intros i d Hi. cbn.
    apply list_elem_of_lookup_2, list_elem_of_filter in Hi as [_ Hin].
    apply list_elem_of_fmap in Hin as (line & -> & _). apply rstrip_written.
Qed.

(** X12.  When every server resolves every domain, no domain is dead,
    no connection is made, and every line is written back. *)
Theorem healthy_list_untouched w rep w' :
  main rnd net_dns net_tcp w = (Ok rep, w') →
  Forall (Forall resolved) (dns_results rep) →
  dead_domains rep = ∅
  ∧ connections w' = connections w
  ∧ list_file w' = map (λ line, rstrip line +:+ LF) (list_file w).
Proof.
  intros Hrun%main_facts Hall.
  destruct (run_phase1 _ _ _ _ Hrun) as [Hdead Hsound _ _].
  assert (∀ d ips, (d, ips) ∈ zip (domains rep) (dns_results rep) →
                   any ips = true ∧ all ips = true) as Hvec.
  { intros d ips [i Hi]%list_elem_of_lookup.
    apply zip_lookup_Some in Hi as [_ Hi].
    pose proof (run_vectors _ _ _ _ Hrun) as Hlen.
    rewrite Forall_lookup in Hall, Hlen.
    specialize (Hall i ips Hi). specialize (Hlen i ips Hi).
    split; [|by apply all_true].
    apply Forall_resolved_any; [by destruct ips | done]. }
  assert (tcp_check_domain_ips rep = []) as Hnone.
  { destruct (tcp_check_domain_ips rep) as [|[d ips] tcp] eqn:Htcp; [done|].
    exfalso. destruct (Hsound d ips) as (Hin & _ & Hfalse).
    - cbn. by rewrite decide_True.
    - destruct (Hvec d ips Hin). congruence. }
  assert (tcp_check_futures rep = []) as Hfuts.
  { pose proof (run_keys _ _ _ _ Hrun) as Hkeys. rewrite Hnone in Hkeys.
    by destruct (tcp_check_futures rep). }
  assert (dead_domains rep = ∅) as Hempty.
  { apply set_eq. intros d. rewrite (run_dead _ _ _ _ Hrun), Hfuts, Hdead.
    split; [|by intros ?%not_elem_of_empty].
    intros [(ips & Hin & Hany)|(futures & Hin%not_elem_of_nil & _)]; [|done].
    destruct (Hvec d ips Hin). congruence. }
  split; [done|]. split.
  - destruct (run_probes _ _ _ _ Hrun) as (conns & -> & Hlen & _).
    rewrite Hnone in Hlen.
    destruct conns; [by rewrite app_nil_r | cbn in Hlen; lia].
  - rewrite (run_file _ _ _ _ Hrun), (run_domains _ _ _ _ Hrun), Hempty.
    rewrite (list_fmap_compose rstrip (λ domain, domain +:+ LF)). f_equal.
    change (map rstrip (list_file w)) with (rstrip <$> list_file w).
    induction (rstrip <$> list_file w) as [|d l IH]; [done|].
    rewrite filter_cons_True by apply not_elem_of_empty. by rewrite IH.
Qed.

(** X13.  On an empty list file the run ends well: it sends no query,
    makes no connection, writes an empty file and prints that no dead
    domain was removed. *)
Theorem empty_list w :
  list_file w = [] →
  main rnd net_dns net_tcp w
  = (Ok (Report [] [] ∅ [] [] ∅),
     World [] (stdout w ++ [LF +:+ "0 dead domain(s) removed"]) (connections w)).
Proof.
  intros Hempty. unfold main, run_until_complete, mbind, prog_bind, bind.
  rewrite Hempty. reflexivity.
Qed.

End ScriptFile.

(** ** The limit on open files *)

Section LimitFacts.
Variable RLIM_INFINITY : Z.

(** X14.  The bump of the limit on open files: for limits in order (the
    soft one at most the hard one, no limit being the greatest), the soft
    limit is the hard one afterwards and the hard one is unchanged; the
    message is printed exactly when the soft limit changes; and a second
    bump changes nothing. *)
Theorem bump_limits_to_hard (p : process) :
  limit_le RLIM_INFINITY (nofile p).1 (nofile p).2 →
  nofile (bump_limits RLIM_INFINITY p) = ((nofile p).2, (nofile p).2)
  ∧ (printed (bump_limits RLIM_INFINITY p) = printed p ↔ (nofile p).1 = (nofile p).2)
  ∧ bump_limits RLIM_INFINITY (bump_limits RLIM_INFINITY p)
    = bump_limits RLIM_INFINITY p.
Proof.
  destruct p as [[soft hard] out]. cbn [nofile fst snd]. intros Hle.
  assert (∀ x : string, out ++ [x] ≠ out) as Hgrow.
  { intros x Heq. apply (f_equal length) in Heq. rewrite length_app in Heq.
    cbn in Heq. lia. }
  unfold bump_limits. cbn [nofile printed].
  destruct (decide (soft = RLIM_INFINITY)) as [->|Hsoft].
  - (* no soft limit: the hard limit is none either *)
    assert (hard = RLIM_INFINITY) as -> by (destruct Hle as [?|[? _]]; done).
    rewrite bool_decide_eq_false_2 by (intros H; by apply H).
    cbn [andb nofile printed].
    rewrite bool_decide_eq_false_2 by (intros H; by apply H). done.
  - rewrite (bool_decide_eq_true_2 (soft ≠ RLIM_INFINITY)) by done. cbn [andb].
    destruct (decide (soft < hard ∨ hard = RLIM_INFINITY)) as [Hup|Hno].
    + assert (bool_decide (soft < hard) || bool_decide (hard = RLIM_INFINITY) = true)
        as -> by (destruct Hup; [rewrite bool_decide_eq_true_2 by done; done
                                |rewrite (bool_decide_eq_true_2 (hard = _)) by done;
                                 apply orb_true_r]).
      cbn [nofile printed]. split_and!; [done | |].
      * split; [by intros ?%Hgrow|]. intros ->. destruct Hup as [?|?]; [lia | done].
      * destruct (decide (hard = RLIM_INFINITY)) as [->|Hhard].
        -- rewrite bool_decide_eq_false_2 by (intros H; by apply H). done.
        -- rewrite (bool_decide_eq_false_2 (hard < hard)) by lia.
           rewrite (bool_decide_eq_false_2 (hard = RLIM_INFINITY)) by done.
           by rewrite andb_false_r.
    + assert (bool_decide (soft < hard) || bool_decide (hard = RLIM_INFINITY) = false)
        as Hcond.
      { apply orb_false_iff. split; apply bool_decide_eq_false_2; tauto. }
      rewrite Hcond. cbn [nofile printed]. rewrite (bool_decide_eq_true_2 _ Hsoft), Hcond.
      cbn [andb].
      assert (soft = hard) as -> by (destruct Hle as [?|[_ ?]]; [tauto | lia]).
      done.
Qed.

End LimitFacts.

(** ** More on the semaphores *)

(** X15.  In every reachable state the calls inside the semaphore of a
    server and the value of that semaphore add up to
    [MAX_CONCURRENT_REQUESTS_PER_DNS_SERVER]; so when a call is inside,
    the value is below the limit, and the release at the end of line 37
    never takes a [BoundedSemaphore] above its bound. *)
Theorem semaphore_accounting n st s :
  Semaphore.reachable n st →
  (Semaphore.holding st s + Semaphore.sem_value (Semaphore.sems st) s
   = MAX_CONCURRENT_REQUESTS_PER_DNS_SERVER)%nat
  ∧ (∀ i, Semaphore.tasks st !! i = Some (Semaphore.Holding s) →
          (Semaphore.sem_value (Semaphore.sems st) s
           < MAX_CONCURRENT_REQUESTS_PER_DNS_SERVER)%nat).
Proof.
  intros [evs Hrun].
  pose proof (run_sem_inv _ _ _ Hrun (init_sem_inv n) s) as Hinv.
  split; [done|]. intros i Hi.
  assert (Semaphore.Holding s
          ∈ filter (λ p, p = Semaphore.Holding s) (Semaphore.tasks st)) as Hin.
  { apply list_elem_of_filter. split; [done|]. by eapply list_elem_of_lookup_2. }
  unfold Semaphore.holding in Hinv.
  destruct (filter _ (Semaphore.tasks st)) as [|p holders];
    [by apply not_elem_of_nil in Hin|].
  cbn [length] in Hinv. lia.
Qed.

(** X16.  A call suspended at a semaphore does not wait for ever: in a
    reachable state in which it cannot enter, some call is inside the
    same semaphore, its wait can end, and the suspended call can enter
    right after. *)
Theorem semaphore_wakes n st i s :
  Semaphore.reachable n st →
  Semaphore.tasks st !! i = Some (Semaphore.Queried s) →
  Semaphore.fire (Semaphore.Acquire i) st = None →
  ∃ j st1 st2,
    Semaphore.tasks st !! j = Some (Semaphore.Holding s)
    ∧ Semaphore.fire (Semaphore.Settle j) st = Some st1
    ∧ Semaphore.fire (Semaphore.Acquire i) st1 = Some st2.
Proof.
  intros [evs Hrun] Hi Hblocked.
  pose proof (run_sem_inv _ _ _ Hrun (init_sem_inv n) s) as Hinv.
  cbn [Semaphore.fire] in Hblocked. rewrite Hi in Hblocked.
  destruct (Semaphore.sem_value (Semaphore.sems st) s) as [|v] eqn:Hv; [|done].
  unfold Semaphore.holding in Hinv.
  destruct (filter (λ p, p = Semaphore.Holding s) (Semaphore.tasks st))
    as [|p holders] eqn:Hholders; [cbn in Hinv; unfold MAX_CONCURRENT_REQUESTS_PER_DNS_SERVER in Hinv; lia|].
  assert (p ∈ filter (λ p, p = Semaphore.Holding s) (Semaphore.tasks st)) as Hp
    by (rewrite Hholders; apply list_elem_of_here).
  apply list_elem_of_filter in Hp as [-> [j Hj]%list_elem_of_lookup].
  assert (i ≠ j) as Hij by (intros ->; congruence).
  eexists j, _, _. split; [exact Hj|]. split.
  - cbn [Semaphore.fire]. rewrite Hj. reflexivity.
  - cbn [Semaphore.fire Semaphore.tasks Semaphore.sems].
    rewrite list_lookup_insert_ne by done. rewrite Hi.
    rewrite sem_value_insert, decide_True by done. reflexivity.
Qed.

(** ** The further theorems at work on the example runs *)

Lemma dns_resolve_raises_witness :
  (1 ≤ 2 ≤ MAX_DNS_ATTEMPTS)%nat
  ∧ times_out_before refused_at_second "a.test" "8.8.8.8" 2
  ∧ ∃ st', dns_resolve (scenario_rnd 0%nat) refused_at_second "a.test" "8.8.8.8"
             (TaskState 0 []) = (Raise ConnectionRefusedError, st')
           ∧ issued "a.test" "8.8.8.8" 2 (TaskState 0 []) st'.
Proof.
  assert (1 ≤ 2 ≤ MAX_DNS_ATTEMPTS)%nat as Hk by (unfold MAX_DNS_ATTEMPTS; lia).
  assert (times_out_before refused_at_second "a.test" "8.8.8.8" 2) as Hbefore.
  { intros a t Ha. unfold refused_at_second. cbn [q_attempt].
    destruct (Nat.ltb_spec a 2); [reflexivity | lia]. }
  split; [exact Hk|]. split; [exact Hbefore|].
  apply (dns_resolve_raises (scenario_rnd 0%nat) refused_at_second "a.test" "8.8.8.8"
           (TaskState 0 []) 2 ConnectionRefusedError Hk Hbefore).
  - intros t. reflexivity.
  - discriminate.
  - discriminate.
Defined.

Lemma first_task_returns :
  first_task = (Ok (replicate 5 (Some "192.0.2.1")), first_task.2).
Proof. vm_compute. reflexivity. Qed.

Lemma dns_resolve_domain_queries_witness :
  first_task = (Ok (replicate 5 (Some "192.0.2.1")), first_task.2)
  ∧ ∃ dns_servers chosen groups,
      dns_servers ≡ₚ DNS_SERVERS
      ∧ Forall2 one_of dns_servers chosen
      ∧ Forall2 (resolution_of "a.test") chosen groups
      ∧ sent first_task.2 = sent (TaskState 0 []) ++ concat groups
      ∧ length (replicate 5 (Some "192.0.2.1")) = length DNS_SERVERS.
Proof.
  split; [exact first_task_returns|].
  exact (dns_resolve_domain_queries (scenario_rnd 0%nat) (scenario_dns 0%nat)
           "a.test" (TaskState 0 []) _ _ first_task_returns).
Defined.

Lemma padded_ends_well : padded_run = (Ok (report_of padded_run), padded_run.2).
Proof. vm_compute. reflexivity. Qed.

Lemma padded_lines :
  map rstrip (list_file padded_file) = ["a.test"; "b.test"]
  ∧ list_file padded_run.2 = ["a.test" +:+ LF].
Proof. split; vm_compute; reflexivity. Qed.

Lemma vectors_complete_witness :
  padded_run = (Ok (report_of padded_run), padded_run.2)
  ∧ domains (report_of padded_run) = ["a.test"; "b.test"]
  ∧ length (dns_results (report_of padded_run)) = length (list_file padded_file)
  ∧ Forall (λ ips : list (option string), length ips = length DNS_SERVERS)
           (dns_results (report_of padded_run)).
Proof.
  destruct (vectors_complete scenario_rnd scenario_dns scenario_tcp padded_file
              _ _ padded_ends_well) as (Hdom & Hlen & Hvec).
  split; [exact padded_ends_well|].
  split; [rewrite Hdom; exact (proj1 padded_lines)|].
  split; [exact Hlen | exact Hvec].
Defined.

Lemma rejected_task :
  (dns_resolve_domain (scenario_rnd 0%nat) (rejecting_dns 0%nat) "example.test"
     (TaskState 0 [])).1 = Raise (Exception "UnicodeError").
Proof. vm_compute. reflexivity. Qed.

Lemma dns_failure_aborts_witness :
  map rstrip (list_file one_line) !! 0%nat = Some "example.test"
  ∧ ∃ e', main scenario_rnd rejecting_dns scenario_tcp one_line = (Raise e', one_line).
Proof.
  assert (map rstrip (list_file one_line) !! 0%nat = Some "example.test") as Hline
    by (vm_compute; reflexivity).
  split; [exact Hline|].
  exact (dns_failure_aborts scenario_rnd rejecting_dns scenario_tcp one_line 0%nat
           "example.test" _ Hline rejected_task).
Defined.

Lemma candidates_in_line_order_witness :
  scenario_run = (Ok (report_of scenario_run), scenario_run.2)
  ∧ NoDup (domains (report_of scenario_run))
  ∧ tcp_check_domain_ips (report_of scenario_run)
    = filter (λ item, mixed item.2)
        (zip (domains (report_of scenario_run)) (dns_results (report_of scenario_run)))
  ∧ dead_dns (report_of scenario_run)
    = list_to_set (filter (λ item, Forall unresolved item.2)
                     (zip (domains (report_of scenario_run))
                          (dns_results (report_of scenario_run)))).*1.
Proof.
  split; [exact scenario_ends_well|]. split; [exact scenario_NoDup|].
  exact (candidates_in_line_order scenario_rnd scenario_dns scenario_tcp scenario_file
           _ _ scenario_ends_well scenario_NoDup).
Defined.

Lemma dead_domains_characterised_witness :
  scenario_run = (Ok (report_of scenario_run), scenario_run.2)
  ∧ "b.test" ∈ dead_domains (report_of scenario_run).
Proof.
  split; [exact scenario_ends_well|].
  apply (proj2 (dead_domains_characterised scenario_rnd scenario_dns scenario_tcp
                  scenario_file _ _ "b.test" scenario_ends_well)).
  left. exists 1%nat, (replicate 5 None).
  rewrite scenario_domains, scenario_vectors.
  split; [reflexivity|]. split; [reflexivity|]. by repeat constructor.
Defined.

Lemma twice_ends_well : twice_run = (Ok (report_of twice_run), twice_run.2).
Proof. vm_compute. reflexivity. Qed.

Lemma twice_vectors :
  zip (domains (report_of twice_run)) (dns_results (report_of twice_run))
  = [("c.test", [None; None; None; None; Some "192.0.2.1"]);
     ("c.test", [None; None; None; Some "192.0.2.2"; None])].
Proof. vm_compute. reflexivity. Qed.

Lemma candidate_vector_is_last_witness :
  twice_run = (Ok (report_of twice_run), twice_run.2)
  ∧ dict_get "c.test" (tcp_check_domain_ips (report_of twice_run))
    = Some [None; None; None; Some "192.0.2.2"; None].
Proof.
  split; [exact twice_ends_well|].
  rewrite (candidate_vector_is_last scenario_rnd twice_dns scenario_tcp twice_file
             _ _ "c.test" twice_ends_well).
  rewrite twice_vectors. vm_compute. reflexivity.
Defined.

Lemma rewritten_file_witness :
  padded_run = (Ok (report_of padded_run), padded_run.2)
  ∧ list_file padded_run.2 = ["a.test" +:+ LF]
  ∧ list_file padded_run.2
      `sublist_of` map (λ line, rstrip line +:+ LF) (list_file padded_file)
  ∧ map rstrip (list_file padded_run.2)
    = filter (λ domain, domain ∉ dead_domains (report_of padded_run))
        (domains (report_of padded_run)).
Proof.
  split; [exact padded_ends_well|]. split; [exact (proj2 padded_lines)|].
  exact (rewritten_file scenario_rnd scenario_dns scenario_tcp padded_file
           _ _ padded_ends_well).
Defined.

Lemma healthy_ends_well : healthy_run = (Ok (report_of healthy_run), healthy_run.2).
Proof. vm_compute. reflexivity. Qed.

Lemma healthy_vectors :
  dns_results (report_of healthy_run) = replicate 3 (replicate 5 (Some "192.0.2.1")).
Proof. vm_compute. reflexivity. Qed.

Lemma healthy_resolved : Forall (Forall resolved) (dns_results (report_of healthy_run)).
Proof. rewrite healthy_vectors. by repeat constructor. Qed.

Lemma healthy_list_untouched_witness :
  healthy_run = (Ok (report_of healthy_run), healthy_run.2)
  ∧ Forall (Forall resolved) (dns_results (report_of healthy_run))
  ∧ dead_domains (report_of healthy_run) = ∅
  ∧ connections healthy_run.2 = connections scenario_file
  ∧ list_file healthy_run.2 = map (λ line, rstrip line +:+ LF) (list_file scenario_file).
Proof.
  split; [exact healthy_ends_well|]. split; [exact healthy_resolved|].
  exact (healthy_list_untouched scenario_rnd healthy_dns fatal_tcp scenario_file
           _ _ healthy_ends_well healthy_resolved).
Defined.

Lemma empty_list_witness :
  list_file empty_file = []
  ∧ main scenario_rnd scenario_dns fatal_tcp empty_file
    = (Ok (Report [] [] ∅ [] [] ∅),
       World [] (stdout empty_file ++ [LF +:+ "0 dead domain(s) removed"])
         (connections empty_file)).
Proof.
  split; [reflexivity|].
  exact (empty_list scenario_rnd scenario_dns fatal_tcp empty_file eq_refl).
Defined.

Lemma bump_limits_to_hard_witness :
  limit_le (-1) (nofile linux_process).1 (nofile linux_process).2
  ∧ nofile (bump_limits (-1) linux_process) = (4096, 4096)
  ∧ printed (bump_limits (-1) linux_process)
    = ["Max open files count set from 1024 to 4096"].
Proof.
  assert (limit_le (-1) (nofile linux_process).1 (nofile linux_process).2) as Hle.
  { right. cbn. split; [discriminate | lia]. }
  split; [exact Hle|].
  destruct (bump_limits_to_hard (-1) linux_process Hle) as (Hlim & _ & _).
  split; [exact Hlim|]. vm_compute. reflexivity.
Defined.

Lemma eleven_reachable : Semaphore.reachable 11 eleven_state.
Proof. exists Semaphore.eleven_queries. vm_compute. reflexivity. Qed.

Lemma semaphore_accounting_witness :
  Semaphore.reachable 11 eleven_state
  ∧ (Semaphore.holding eleven_state "8.8.8.8"
     + Semaphore.sem_value (Semaphore.sems eleven_state) "8.8.8.8"
     = MAX_CONCURRENT_REQUESTS_PER_DNS_SERVER)%nat.
Proof.
  split; [exact eleven_reachable|].
  exact (proj1 (semaphore_accounting 11 eleven_state "8.8.8.8" eleven_reachable)).
Defined.

Lemma eleventh_waits :
  Semaphore.tasks eleven_state !! 10%nat = Some (Semaphore.Queried "8.8.8.8")
  ∧ Semaphore.fire (Semaphore.Acquire 10) eleven_state = None.
Proof. split; vm_compute; reflexivity. Qed.

Lemma semaphore_wakes_witness :
  Semaphore.reachable 11 eleven_state
  ∧ Semaphore.tasks eleven_state !! 10%nat = Some (Semaphore.Queried "8.8.8.8")
  ∧ Semaphore.fire (Semaphore.Acquire 10) eleven_state = None
  ∧ ∃ j st1 st2,
      Semaphore.tasks eleven_state !! j = Some (Semaphore.Holding "8.8.8.8")
      ∧ Semaphore.fire (Semaphore.Settle j) eleven_state = Some st1
      ∧ Semaphore.fire (Semaphore.Acquire 10) st1 = Some st2.
Proof.
  destruct eleventh_waits as [Hwaits Hblocked].
  split; [exact eleven_reachable|]. split; [exact Hwaits|]. split; [exact Hblocked|].
  exact (semaphore_wakes 11 eleven_state 10 "8.8.8.8" eleven_reachable Hwaits Hblocked).
Defined.
